(** * VehicleTrak: epoch conversion and upload scheduling of the two ESP32 sketches

    Shallow embedding of [gps_esp/gps_esp.ino] (GPS logger) and
    [rtc_btn_smoke_esp/rtc_btn_smoke_esp.ino] (sensor logger).

    Conventions.
    - The target is the ESP32 (ILP32): [int] and [long] are 32-bit two's
      complement, [unsigned long] is 32 bits and wraps modulo 2^32.
      Integers are carried as [Z]; every unsigned operation of the source is
      followed by [to_ulong].
    - [double] is IEEE binary64, carried by Rocq's primitive floats.
    - Behaviour the C++ standard leaves undefined (reading past the end of
      an array, signed overflow, a float-to-integer cast out of range) is
      made explicit: the embedded function returns [None] there.
    - Library objects ([TinyGPSPlus], [FirebaseApp], [RTC_DS3231], the
      Arduino core) are not part of the sketches; what the sketches read
      from them is an input of each loop iteration, what the sketches ask
      them to do is an output event.  In particular the readings of
      [millis()] are inputs of the iterations, so the time an iteration
      takes (and the [delay(50)] of the sensor logger) needs no model.
    - [Serial] output is kept for [setup()], where a message is the only
      trace of a failed synchronisation, and left out of the two
      [loop()]s. *)

From Stdlib Require Import ZArith List Ascii String Bool Lia.
From Stdlib Require Import Sorting.Sorted.
From Stdlib Require Import DecimalString DecimalPos DecimalN.
From Stdlib Require Import Floats.PrimFloat Floats.SpecFloat Floats.FloatOps.
Import ListNotations.

Set Warnings "-inexact-float".
Local Open Scope Z_scope.

(** ** Machine integers and undefined behaviour *)

Module Machine.

Definition ulong_modulus : Z := 4294967296.   (* 2^32 *)
Definition long_min : Z := -2147483648.       (* -2^31 *)
Definition long_max : Z := 2147483647.        (* 2^31 - 1 *)

(** Conversion to [unsigned long] (and the result of every unsigned
    operation): reduction modulo 2^32. *)
Definition to_ulong (z : Z) : Z := z mod ulong_modulus.

Definition is_ulong (z : Z) : Prop := 0 <= z < ulong_modulus.

Definition in_long (z : Z) : bool := (long_min <=? z) && (z <=? long_max).

(** A computation of the source that may be undefined. *)
Definition ub (A : Type) : Type := option A.

Definition bind {A B : Type} (m : ub A) (k : A -> ub B) : ub B :=
  match m with
  | Some a => k a
  | None => None
  end.

(** [for (int i = lo; i < hi; i++) acc = body(i, acc);] *)
Fixpoint for_loop {A : Type} (n : nat) (i : Z) (body : Z -> A -> ub A) (acc : A)
  : ub A :=
  match n with
  | O => Some acc
  | S n' => bind (body i acc) (for_loop n' (i + 1) body)
  end.

Definition for_range {A : Type} (lo hi : Z) (body : Z -> A -> ub A) (acc : A)
  : ub A :=
  for_loop (Z.to_nat (hi - lo)) lo body acc.

(** [a[i]] on a C array of known length: undefined outside of it. *)
Definition array_get (a : list Z) (i : Z) : ub Z :=
  if i <? 0 then None else nth_error a (Z.to_nat i).

(** [a[i] = v] for an index inside the array. *)
Fixpoint array_set (a : list Z) (i : nat) (v : Z) : list Z :=
  match a, i with
  | [], _ => []
  | _ :: t, O => v :: t
  | h :: t, S i' => h :: array_set t i' v
  end.

(** [String(n)] for an [unsigned long]: its decimal digits. *)
Definition String_of_ulong (n : Z) : string :=
  NilZero.string_of_uint (N.to_uint (Z.to_N n)).

(** [%d] of [printf] for an [int]: its decimal digits, with a sign. *)
Definition String_of_int (n : Z) : string :=
  NilZero.string_of_int (Z.to_int n).

(** The line feed of a format string. *)
Definition newline : string := String "010"%char EmptyString.

End Machine.
Import Machine.

Notation "x <- m ;; k" := (bind m (fun x => k))
  (at level 61, m at next level, right associativity).

(** ** [double] arithmetic used by the GPS logger *)

Module Double.

(** [(long) x]: the fractional part is discarded (truncation toward
    zero); undefined when the truncated value does not fit a [long], or
    for an infinity or a NaN. *)
Definition to_long (x : float) : ub Z :=
  match Prim2SF x with
  | S754_zero _ => Some 0
  | S754_finite sign m e =>
      let magnitude :=
        if 0 <=? e then Z.pos m * 2 ^ e else Z.pos m / 2 ^ (- e) in
      let v := if sign then - magnitude else magnitude in
      if in_long v then Some v else None
  | S754_infinity _ => None
  | S754_nan => None
  end.

(** Conversion of a [long] to [double] (exact: 32 bits fit 53). *)
Definition of_long (z : Z) : float :=
  SF2Prim (binary_normalize prec emax z 0 false).

End Double.

(** ** Requests to the remote store, and repeated calls of [loop()] *)

Module Sketch.

(** JSON leaves as the sketches hand them to [JsonWriter::create]. *)
Inductive json_value : Type :=
| JText (s : string)     (* a character literal *)
| JDouble (d : float)
| JULong (n : Z)
| JBool (b : bool).

Definition object_t : Type := list (string * json_value).

(** [writer.create(obj, path, value)] *)
Definition create (path : string) (value : json_value) : object_t :=
  [(path, value)].

(** [writer.join(json, n, obj1, ..., objn)] *)
Definition join (objs : list object_t) : object_t := List.concat objs.

(** [Database.set<object_t>(aClient, path, json, processData, task)]: the
    only request a loop sends. *)
Inductive event : Type :=
| Database_set (path : string) (json : object_t) (task : string).

Definition event_path (e : event) : string :=
  match e with Database_set path _ _ => path end.

Definition event_json (e : event) : object_t :=
  match e with Database_set _ json _ => json end.

(** How one call of [loop()] ends: it returns (and is called again with the
    new globals), it never returns ([while (true);]), or its behaviour is
    undefined. *)
Inductive outcome (S : Type) : Type :=
| Running (s : S)
| Halted
| Undefined.
Arguments Running {S} s.
Arguments Halted {S}.
Arguments Undefined {S}.

(** Repeated calls of [loop()], one per element of [ticks]; the result lists
    the requests of each call.  Nothing is sent once the device hangs. *)
Fixpoint run {S I : Type} (loop : S -> I -> list event * outcome S)
  (s : S) (ticks : list I) : list (list event) :=
  match ticks with
  | [] => []
  | i :: rest =>
      let '(evs, o) := loop s i in
      evs :: match o with
             | Running s' => run loop s' rest
             | Halted | Undefined => map (fun _ => []) rest
             end
  end.

(** The clock readings at which requests were sent, one per request. *)
Definition upload_times (nows : list Z) (outs : list (list event)) : list Z :=
  flat_map (fun p => map (fun _ => fst p) (snd p)) (combine nows outs).

(** What [processData] reads from the [AsyncResult] it is handed. *)
Record AsyncResult : Type := {
  isResult : bool;
  isEvent : bool;
  isDebug : bool;
  isError : bool;
  available : bool;
  result_uid : string;
  eventLog_message : string;
  eventLog_code : Z;
  debug : string;
  error_message : string;
  error_code : Z;
  c_str : string
}.

End Sketch.
Import Sketch.

(** ** [gps_esp.ino]: calendar to epoch *)

Module GpsEsp.

Definition isLeapYear (year : Z) : bool :=
  ((Z.rem year 4 =? 0) && negb (Z.rem year 100 =? 0)) || (Z.rem year 400 =? 0).

Definition daysInMonth_init : list Z :=
  [0; 31; 28; 31; 30; 31; 30; 31; 31; 30; 31; 30; 31].

(** The arguments are [int]s.  [daysInMonth[m]] is read past the end of the
    table when [month] exceeds 13, and [day - 1] overflows for the least
    [int]. *)
Definition gpsToEpoch (year month day hour minute second : Z) : ub Z :=
  let daysInMonth :=
    if isLeapYear year then array_set daysInMonth_init 2 29
    else daysInMonth_init in
  let days := 0 in
  days <- for_range 1970 year
            (fun y days =>
               Some (to_ulong (days + (if isLeapYear y then 366 else 365))))
            days ;;
  days <- for_range 1 month
            (fun m days =>
               d <- array_get daysInMonth m ;;
               Some (to_ulong (days + d)))
            days ;;
  days <- (if day - 1 <? long_min then None
           else Some (to_ulong (days + (day - 1)))) ;;
  let epoch :=
    to_ulong
      (to_ulong
         (to_ulong (to_ulong (days * 86400) + to_ulong (to_ulong hour * 3600))
          + to_ulong (to_ulong minute * 60))
       + to_ulong second) in
  Some epoch.

(** What the sketch reads from the [TinyGPSPlus] object after the serial
    bytes of an iteration have been fed to it. *)
Record TinyGPSPlus : Type := {
  location_isValid : bool;
  location_lat : float;
  location_lng : float;
  date_isValid : bool;
  time_isValid : bool;
  date_year : Z;
  date_month : Z;
  date_day : Z;
  time_hour : Z;
  time_minute : Z;
  time_second : Z;
  charsProcessed : Z
}.

Definition getGPSEpochUTC (gps : TinyGPSPlus) : ub Z :=
  if date_isValid gps && time_isValid gps then
    gpsToEpoch (date_year gps) (date_month gps) (date_day gps)
               (time_hour gps) (time_minute gps) (time_second gps)
  else Some 0.

(** *** [gps_esp.ino]: the upload loop *)

Definition latPath : string := "/latitude".
Definition lngPath : string := "/longitude".
Definition timePath : string := "/timestamp".

Definition sendInterval : Z := 60000.

(** The globals [loop()] reads and writes. *)
Record globals : Type := {
  lastSendTime : Z;
  uid : string;
  databasePath : string
}.

Definition boot : globals :=
  {| lastSendTime := 0; uid := EmptyString; databasePath := EmptyString |}.

(** What one call of [loop()] reads from its environment: the session
    (after [app.loop()]), the GPS object after the pending serial bytes were
    fed to it, and the three readings of [millis()] (lines 181, 210 and
    218). *)
Record iteration : Type := {
  app_ready : bool;
  app_getUid : string;
  gps : TinyGPSPlus;
  millis_gate : Z;
  millis_key : Z;
  millis_failsafe : Z
}.

(** [((long)(x * 100000)) / 100000.0] *)
Definition truncate5 (x : float) : ub float :=
  l <- Double.to_long (PrimFloat.mul x (Double.of_long 100000)) ;;
  Some (PrimFloat.div (Double.of_long l) 100000%float).

(** Lines 180 to 215. *)
Definition upload (st : globals) (it : iteration) : ub (globals * list event) :=
  if app_ready it && location_isValid (gps it)
     && date_isValid (gps it) && time_isValid (gps it) then
    let currentTime := millis_gate it in
    if sendInterval <=? to_ulong (currentTime - lastSendTime st) then
      let uid' := app_getUid it in
      let databasePath' := ("/UsersData/" ++ uid' ++ "/gpsLogs")%string in
      let latitude := location_lat (gps it) in
      let longitude := location_lng (gps it) in
      utcEpoch <- getGPSEpochUTC (gps it) ;;
      latitude <- truncate5 latitude ;;
      longitude <- truncate5 longitude ;;
      let obj1 := create latPath (JText "0.0000000") in
      let obj2 := create lngPath (JDouble longitude) in
      let obj3 := create timePath (JULong utcEpoch) in
      let jsonData := join [obj1; obj2; obj3] in
      let parentPath :=
        (databasePath' ++ "/" ++ String_of_ulong (millis_key it))%string in
      Some ({| lastSendTime := currentTime;
               uid := uid';
               databasePath := databasePath' |},
            [Database_set parentPath jsonData "GPS_Data"])
    else Some (st, [])
  else Some (st, []).

(** Line 218. *)
Definition failsafe (it : iteration) : bool :=
  (10000 <? millis_failsafe it) && (charsProcessed (gps it) <? 10).

Definition loop (st : globals) (it : iteration) : list event * outcome globals :=
  match upload st it with
  | None => ([], Undefined)
  | Some (st', evs) => (evs, if failsafe it then Halted else Running st')
  end.

(** *** [gps_esp.ino]: the callback and [setup()] *)

(** [processData]: the lines it hands to [Firebase.printf], in order. *)
Definition processData (aResult : AsyncResult) : list string :=
  if negb (isResult aResult) then []
  else
    (if isEvent aResult
     then [("Event: " ++ eventLog_message aResult ++ newline)%string]
     else [])
    ++ (if isError aResult
        then [("Error: " ++ error_message aResult ++ " (code "
               ++ String_of_int (error_code aResult) ++ ")" ++ newline)%string]
        else [])
    ++ (if available aResult
        then [("Payload: " ++ c_str aResult ++ newline)%string]
        else []).

(** The simulated board while [setup()] runs: [delay(n)] advances [clock]
    by [n]; [Serial] collects what is printed. *)
Record board : Type := {
  clock : Z;
  serial : list string
}.

Definition delay (n : Z) (b : board) : board :=
  {| clock := clock b + n; serial := serial b |}.

Definition print (msg : string) (b : board) : board :=
  {| clock := clock b; serial := serial b ++ [msg] |}.

(** Lines 146 to 149.  [connected t] tells whether [WiFi.status()] is
    [WL_CONNECTED] when the simulated clock shows [t]; [None] only when
    [fuel] iterations were not enough. *)
Fixpoint wifi_wait (connected : Z -> bool) (fuel : nat) (b : board)
  : option board :=
  if connected (clock b) then Some b
  else
    match fuel with
    | O => None
    | S fuel' => wifi_wait connected fuel' (delay 1000 (print "." b))
    end.

Definition msg_setup_complete : string := "Setup complete. Waiting for GPS...".

Definition setup (connected : Z -> bool) (fuel : nat) (b : board)
  : option board :=
  let b := print "Connecting to WiFi .." b in
  match wifi_wait connected fuel b with
  | None => None
  | Some b =>
      let b := print " CONNECTED!" b in
      Some (print msg_setup_complete b)
  end.

End GpsEsp.

(** ** [rtc_btn_smoke_esp.ino] *)

Module RtcBtnSmokeEsp.

Definition sendInterval : Z := 6000.

Definition LOW : Z := 0.

(** The globals of the sketch, and the DS3231.  The chip is a free-running
    seconds counter: [rtc_epoch] is the epoch it was last set to (by
    [rtc.adjust], or before this boot), and an iteration reads how many
    seconds it has counted since [setup()] returned. *)
Record machine : Type := {
  lastSendTime : Z;
  uid : string;
  databasePath : string;
  parentPath : string;
  timestampEpoch : Z;
  rtc_epoch : Z
}.

(** *** [setup()], lines 96 to 120: reconciliation with network time *)

(** The simulated board while [setup()] runs: [millis()] reads [clock],
    [delay(n)] advances it by [n]; [Serial] collects what is printed. *)
Record world : Type := {
  clock : Z;
  rtc : Z;
  serial : list string
}.

Definition millis (w : world) : Z := to_ulong (clock w).

Definition delay (n : Z) (w : world) : world :=
  {| clock := clock w + n; rtc := rtc w; serial := serial w |}.

Definition print (msg : string) (w : world) : world :=
  {| clock := clock w; rtc := rtc w; serial := serial w ++ [msg] |}.

(** [rtc.adjust(DateTime((uint32_t)now))] *)
Definition rtc_adjust (now : Z) (w : world) : world :=
  {| clock := clock w; rtc := to_ulong now; serial := serial w |}.

Definition ntp_floor : Z := 1600000000.
Definition ntp_timeout : Z := 10000.

(** The polling loop of lines 103 to 107.  [time t] is what [time(nullptr)]
    returns when the simulated clock shows [t]; [None] only when [fuel]
    iterations were not enough. *)
Fixpoint ntp_wait (time : Z -> Z) (fuel : nat) (startMillis : Z) (now : Z)
  (w : world) : option (Z * world) :=
  if (now <? ntp_floor) && (to_ulong (millis w - startMillis) <? ntp_timeout) then
    match fuel with
    | O => None
    | S fuel' =>
        let w := print "." w in
        let w := delay 500 w in
        let now := time (clock w) in
        ntp_wait time fuel' startMillis now w
    end
  else Some (now, w).

Definition msg_syncing : string := "Syncing time with NTP (UTC)...".
Definition msg_updated : string := "RTC updated from NTP (UTC).".
Definition msg_failed : string := "Failed to get NTP time; RTC not updated.".

Definition ntp_sync (time : Z -> Z) (fuel : nat) (w : world) : option world :=
  let w := print msg_syncing w in
  let startMillis := millis w in
  let now := time (clock w) in
  match ntp_wait time fuel startMillis now w with
  | None => None
  | Some (now, w) =>
      let w := print EmptyString w in
      if ntp_floor <=? now then
        let w := print "NTP epoch (UTC): " w in
        let w := print (String_of_ulong (to_ulong now)) w in
        let w := rtc_adjust now w in
        Some (print msg_updated w)
      else Some (print msg_failed w)
  end.

(** The globals as initialised, and the chip as [setup()] left it. *)
Definition after_setup (w : world) : machine :=
  {| lastSendTime := 0;
     uid := EmptyString;
     databasePath := EmptyString;
     parentPath := EmptyString;
     timestampEpoch := 0;
     rtc_epoch := rtc w |}.

(** *** [loop()] *)

(** What one call of [loop()] reads: the session, [millis()] (line 140),
    the seconds the DS3231 has counted, and the two input pins. *)
Record iteration : Type := {
  app_ready : bool;
  app_getUid : string;
  millis_now : Z;
  rtc_elapsed : Z;
  digitalRead_DO_PIN : Z;
  digitalRead_EMER_PIN : Z
}.

(** [(unsigned long) rtc.now().unixtime()] *)
Definition getEpochFromRTC (st : machine) (it : iteration) : Z :=
  to_ulong (rtc_epoch st + rtc_elapsed it).

Definition loop (st : machine) (it : iteration) : list event * outcome machine :=
  if app_ready it then
    let nowMillis := millis_now it in
    if sendInterval <=? to_ulong (nowMillis - lastSendTime st) then
      let uid' := app_getUid it in
      let databasePath' := ("/UsersData/" ++ uid' ++ "/readings")%string in
      let timestampEpoch' := getEpochFromRTC st it in
      let smoking := digitalRead_DO_PIN it =? LOW in
      let emergency_press := digitalRead_EMER_PIN it =? LOW in
      let parentPath' :=
        (databasePath' ++ "/" ++ String_of_ulong timestampEpoch')%string in
      let obj1 := create "/smoking" (JBool smoking) in
      let obj2 := create "/timestamp" (JULong timestampEpoch') in
      let obj3 := create "/emergency_press" (JBool emergency_press) in
      let jsonData := join [obj1; obj2; obj3] in
      ([Database_set parentPath' jsonData "RTDB_Send_Data"],
       Running {| lastSendTime := nowMillis;
                  uid := uid';
                  databasePath := databasePath';
                  parentPath := parentPath';
                  timestampEpoch := timestampEpoch';
                  rtc_epoch := rtc_epoch st |})
    else ([], Running st)
  else ([], Running st).

(** *** [initWiFi], the whole of [setup()], and the callback *)

(** Lines 60 to 63, with [connected] and [fuel] as for the GPS logger. *)
Fixpoint wifi_wait (connected : Z -> bool) (fuel : nat) (w : world)
  : option world :=
  if connected (clock w) then Some w
  else
    match fuel with
    | O => None
    | S fuel' => wifi_wait connected fuel' (delay 500 (print "." w))
    end.

Definition initWiFi (connected : Z -> bool) (localIP : string) (fuel : nat)
  (w : world) : option world :=
  let w := print "Connecting to WiFi .." w in
  match wifi_wait connected fuel w with
  | None => None
  | Some w =>
      Some (print (newline ++ "WiFi connected. IP: " ++ localIP)%string w)
  end.

Definition msg_warming : string := "Warming up MQ-2 sensor (20s)...".
Definition msg_no_rtc : string := "Couldn't find RTC (DS3231)!".
Definition msg_setup_complete : string := "Setup complete.".

(** [setup()].  [rtc_begin] is what [rtc.begin()] returns. *)
Definition setup (rtc_begin : bool) (connected : Z -> bool) (localIP : string)
  (time : Z -> Z) (fuel : nat) (w : world) : option world :=
  let w := delay 100 w in
  let w := print msg_warming w in
  let w := delay 20000 w in
  let w := if negb rtc_begin then print msg_no_rtc w else w in
  match initWiFi connected localIP fuel w with
  | None => None
  | Some w =>
      match ntp_sync time fuel w with
      | None => None
      | Some w => Some (print msg_setup_complete w)
      end
  end.

(** [processData]: the lines it hands to [Firebase.printf], in order. *)
Definition processData (aResult : AsyncResult) : list string :=
  if negb (isResult aResult) then []
  else
    (if isEvent aResult
     then [("Event: " ++ result_uid aResult ++ ", msg: "
            ++ eventLog_message aResult ++ ", code: "
            ++ String_of_int (eventLog_code aResult) ++ newline)%string]
     else [])
    ++ (if isDebug aResult
        then [("Debug: " ++ result_uid aResult ++ ", msg: "
               ++ debug aResult ++ newline)%string]
        else [])
    ++ (if isError aResult
        then [("Error: " ++ result_uid aResult ++ ", msg: "
               ++ error_message aResult ++ ", code: "
               ++ String_of_int (error_code aResult) ++ newline)%string]
        else [])
    ++ (if available aResult
        then [("Task: " ++ result_uid aResult ++ ", payload: "
               ++ c_str aResult ++ newline)%string]
        else []).

End RtcBtnSmokeEsp.

(** ** Vocabulary of the properties *)

(** An hour, a minute and a second of a day. *)
Definition tod_in_range (h mi s : Z) : Prop :=
  0 <= h <= 23 /\ 0 <= mi <= 59 /\ 0 <= s <= 59.

(** Lexicographic order on (hour, minute, second). *)
Definition tod_lt (t1 t2 : Z * Z * Z) : Prop :=
  let '(h1, mi1, s1) := t1 in
  let '(h2, mi2, s2) := t2 in
  h1 < h2 \/ (h1 = h2 /\ (mi1 < mi2 \/ (mi1 = mi2 /\ s1 < s2))).

(** The later time of the same day converts to the larger epoch. *)
Definition epoch_increases (y mo d : Z) (t1 t2 : Z * Z * Z) : Prop :=
  let '(h1, mi1, s1) := t1 in
  let '(h2, mi2, s2) := t2 in
  exists e1 e2,
    GpsEsp.gpsToEpoch y mo d h1 mi1 s1 = Some e1
    /\ GpsEsp.gpsToEpoch y mo d h2 mi2 s2 = Some e2
    /\ e1 < e2.

(** The integers [lo], [lo + 1], ..., [lo + n - 1]. *)
Definition Z_range (lo : Z) (n : nat) : list Z :=
  map (fun k => lo + Z.of_nat k) (seq 0 n).

(** The three stages of [gpsToEpoch] at midnight: the days of the full
    years, the days of the full months, then day and scaling.  Used to
    tabulate the conversion month by month; [gpsToEpoch_by_stage] relates
    them to the function. *)
Definition days_before_year (y : Z) : ub Z :=
  for_range 1970 y
    (fun y days =>
       Some (to_ulong (days + (if GpsEsp.isLeapYear y then 366 else 365))))
    0.

Definition days_before_month (leap : bool) (days mo : Z) : ub Z :=
  let daysInMonth :=
    if leap then array_set GpsEsp.daysInMonth_init 2 29
    else GpsEsp.daysInMonth_init in
  for_range 1 mo
    (fun m days =>
       d <- array_get daysInMonth m ;;
       Some (to_ulong (days + d)))
    days.

Definition midnight_of_day (days d : Z) : ub Z :=
  days <- (if d - 1 <? long_min then None
           else Some (to_ulong (days + (d - 1)))) ;;
  Some (to_ulong
          (to_ulong
             (to_ulong (to_ulong (days * 86400) + to_ulong (to_ulong 0 * 3600))
              + to_ulong (to_ulong 0 * 60))
           + to_ulong 0)).

(** The last second of the 31st day after [days] still fits an
    [unsigned long]. *)
Definition month_fits (leap : bool) (days mo : Z) : bool :=
  match days_before_month leap days mo with
  | Some days => (0 <=? days) && ((days + 30) * 86400 + 86399 <? ulong_modulus)
  | None => false
  end.

Definition year_fits (y : Z) : bool :=
  match days_before_year y with
  | Some days => forallb (month_fits (GpsEsp.isLeapYear y) days) (Z_range 1 12)
  | None => false
  end.

(** *** Scheduling *)

(** Any two of the instants are at least [interval] apart. *)
Definition apart (interval : Z) (ts : list Z) : Prop :=
  ForallOrdPairs (fun a b => a + interval <= b) ts.

(** What a loop does with its schedule: an iteration sends nothing and
    keeps the instant of the last send, or sends one request, at least
    [interval] after the last send as the [unsigned long] subtraction sees
    it, and records its clock reading. *)
Definition schedules {S I : Type} (loop : S -> I -> list event * outcome S)
  (last : S -> Z) (now : I -> Z) (interval : Z) : Prop :=
  forall (s : S) (i : I),
    match loop s i with
    | ([], o) => forall s', o = Running s' -> last s' = last s
    | ([_], o) =>
        interval <= to_ulong (now i - last s)
        /\ forall s', o = Running s' -> last s' = now i
    | (_ :: _ :: _, _) => False
    end.

(** Against a clock whose readings do not decrease, from a state whose last
    send is not after the first reading: every upload is at least [interval]
    after the last send, and any two uploads are at least [interval]
    apart. *)
Definition never_twice_within_interval {S I : Type}
  (loop : S -> I -> list event * outcome S)
  (last : S -> Z) (now : I -> Z) (interval : Z) : Prop :=
  forall (s : S) (ticks : list I),
    is_ulong (last s) ->
    Sorted Z.le (last s :: map now ticks) ->
    Forall is_ulong (map now ticks) ->
    let times := upload_times (map now ticks) (run loop s ticks) in
    Forall (fun t => last s + interval <= t) times /\ apart interval times.

Definition at_most_one_per_tick {S I : Type}
  (loop : S -> I -> list event * outcome S) : Prop :=
  forall (s : S) (ticks : list I),
    Forall (fun o => (List.length o <= 1)%nat) (run loop s ticks).

(** The loop was not called for [k] intervals or more; the iteration [it]
    that resumes is allowed to send ([may_send]); the iterations [rest]
    follow within one interval.  Then exactly one upload is sent, by [it]. *)
Definition one_upload_after_stall {S I : Type}
  (loop : S -> I -> list event * outcome S)
  (last : S -> Z) (now : I -> Z) (interval : Z) (may_send : I -> Prop) : Prop :=
  forall (s : S) (it : I) (rest : list I) (k : Z),
    1 <= k ->
    is_ulong (last s) -> is_ulong (now it) ->
    last s + k * interval <= now it ->
    may_send it ->
    Forall (fun r => now it <= now r < now it + interval) rest ->
    exists e,
      fst (loop s it) = [e]
      /\ List.concat (run loop s (it :: rest)) = [e].

(** The values of a GPS upload are defined. *)
Definition fix_defined (g : GpsEsp.TinyGPSPlus) : Prop :=
  exists epoch lat lng,
    GpsEsp.getGPSEpochUTC g = Some epoch
    /\ GpsEsp.truncate5 (GpsEsp.location_lat g) = Some lat
    /\ GpsEsp.truncate5 (GpsEsp.location_lng g) = Some lng.

Definition gps_may_send (it : GpsEsp.iteration) : Prop :=
  GpsEsp.app_ready it = true
  /\ GpsEsp.location_isValid (GpsEsp.gps it) = true
  /\ GpsEsp.date_isValid (GpsEsp.gps it) = true
  /\ GpsEsp.time_isValid (GpsEsp.gps it) = true
  /\ fix_defined (GpsEsp.gps it).

Definition rtc_may_send (it : RtcBtnSmokeEsp.iteration) : Prop :=
  RtcBtnSmokeEsp.app_ready it = true.

(** The number of uploads of each iteration of a run. *)
Definition upload_counts (outs : list (list event)) : list nat :=
  map (@List.length event) outs.

(** The iterations that sent a request, one per request. *)
Definition upload_ticks {I : Type} (ticks : list I) (outs : list (list event))
  : list I :=
  flat_map (fun p => map (fun _ => fst p) (snd p)) (combine ticks outs).

(** *** Reconciliation at boot *)

(** What lines 96 to 120 do on the board [w] when [time(nullptr)] follows
    [time]: they return, having polled every half second up to poll [k],
    at most 20 polls and [ntp_timeout] milliseconds after the first; every
    earlier poll read less than [ntp_floor]; when one of the polls within
    the timeout reads [ntp_floor] or more, the chip is set to the first such
    reading; when none does, the chip keeps its epoch and the failure is
    printed; and the uploads of the loop that follows do not depend on which
    of the two happened. *)
Definition ntp_reconciled (time : Z -> Z) (fuel : nat)
  (w : RtcBtnSmokeEsp.world) : Prop :=
  exists (w' : RtcBtnSmokeEsp.world) (k : Z),
    RtcBtnSmokeEsp.ntp_sync time fuel w = Some w'
    /\ 0 <= k <= 20
    /\ RtcBtnSmokeEsp.clock w' = RtcBtnSmokeEsp.clock w + 500 * k
    /\ RtcBtnSmokeEsp.clock w' - RtcBtnSmokeEsp.clock w
       <= RtcBtnSmokeEsp.ntp_timeout
    /\ (forall j, 0 <= j < k ->
          time (RtcBtnSmokeEsp.clock w + 500 * j) < RtcBtnSmokeEsp.ntp_floor)
    /\ ((exists j, 0 <= j <= 20
                   /\ RtcBtnSmokeEsp.ntp_floor
                      <= time (RtcBtnSmokeEsp.clock w + 500 * j)) ->
        RtcBtnSmokeEsp.ntp_floor <= time (RtcBtnSmokeEsp.clock w')
        /\ RtcBtnSmokeEsp.rtc w' = time (RtcBtnSmokeEsp.clock w')
        /\ last (RtcBtnSmokeEsp.serial w') EmptyString
           = RtcBtnSmokeEsp.msg_updated)
    /\ ((forall j, 0 <= j <= 20 ->
           time (RtcBtnSmokeEsp.clock w + 500 * j) < RtcBtnSmokeEsp.ntp_floor) ->
        k = 20
        /\ RtcBtnSmokeEsp.rtc w' = RtcBtnSmokeEsp.rtc w
        /\ last (RtcBtnSmokeEsp.serial w') EmptyString
           = RtcBtnSmokeEsp.msg_failed)
    /\ (forall (time2 : Z -> Z) (w2 : RtcBtnSmokeEsp.world)
               (ticks : list RtcBtnSmokeEsp.iteration),
          RtcBtnSmokeEsp.ntp_sync time2 fuel w = Some w2 ->
          upload_counts
            (run RtcBtnSmokeEsp.loop (RtcBtnSmokeEsp.after_setup w') ticks)
          = upload_counts
              (run RtcBtnSmokeEsp.loop (RtcBtnSmokeEsp.after_setup w2) ticks)).

(** *** Sample inputs *)

(** A GPS object holding a complete fix, one whose time is not decoded yet,
    one at the start of the epoch; iterations built from them. *)
Definition sample_fix : GpsEsp.TinyGPSPlus :=
  {| GpsEsp.location_isValid := true;
     GpsEsp.location_lat := 12.3456789%float;
     GpsEsp.location_lng := (-77.1234567)%float;
     GpsEsp.date_isValid := true;
     GpsEsp.time_isValid := true;
     GpsEsp.date_year := 2024;
     GpsEsp.date_month := 3;
     GpsEsp.date_day := 1;
     GpsEsp.time_hour := 0;
     GpsEsp.time_minute := 0;
     GpsEsp.time_second := 0;
     GpsEsp.charsProcessed := 4096 |}.

Definition sample_no_time : GpsEsp.TinyGPSPlus :=
  {| GpsEsp.location_isValid := true;
     GpsEsp.location_lat := 12.3456789%float;
     GpsEsp.location_lng := (-77.1234567)%float;
     GpsEsp.date_isValid := true;
     GpsEsp.time_isValid := false;
     GpsEsp.date_year := 2024;
     GpsEsp.date_month := 3;
     GpsEsp.date_day := 1;
     GpsEsp.time_hour := 0;
     GpsEsp.time_minute := 0;
     GpsEsp.time_second := 0;
     GpsEsp.charsProcessed := 4096 |}.

Definition gps_tick (ready : bool) (g : GpsEsp.TinyGPSPlus) (t : Z)
  : GpsEsp.iteration :=
  {| GpsEsp.app_ready := ready;
     GpsEsp.app_getUid := "u1";
     GpsEsp.gps := g;
     GpsEsp.millis_gate := t;
     GpsEsp.millis_key := t;
     GpsEsp.millis_failsafe := t |}.

Definition epoch_start : GpsEsp.TinyGPSPlus :=
  {| GpsEsp.location_isValid := true;
     GpsEsp.location_lat := 0%float;
     GpsEsp.location_lng := 0%float;
     GpsEsp.date_isValid := true;
     GpsEsp.time_isValid := true;
     GpsEsp.date_year := 1970;
     GpsEsp.date_month := 1;
     GpsEsp.date_day := 1;
     GpsEsp.time_hour := 0;
     GpsEsp.time_minute := 0;
     GpsEsp.time_second := 0;
     GpsEsp.charsProcessed := 4096 |}.

Definition rtc_tick (ready : bool) (t secs : Z) : RtcBtnSmokeEsp.iteration :=
  {| RtcBtnSmokeEsp.app_ready := ready;
     RtcBtnSmokeEsp.app_getUid := "u1";
     RtcBtnSmokeEsp.millis_now := t;
     RtcBtnSmokeEsp.rtc_elapsed := secs;
     RtcBtnSmokeEsp.digitalRead_DO_PIN := 1;
     RtcBtnSmokeEsp.digitalRead_EMER_PIN := 0 |}.

Definition rtc_boot : RtcBtnSmokeEsp.machine :=
  RtcBtnSmokeEsp.after_setup
    {| RtcBtnSmokeEsp.clock := 30000;
       RtcBtnSmokeEsp.rtc := 1700000000;
       RtcBtnSmokeEsp.serial := [] |}.

Definition sample_gps_ticks : list GpsEsp.iteration :=
  map (gps_tick true sample_fix)
      [0; 59999; 60000; 61000; 119999; 300000; 300500; 359999; 360000].

Definition sample_rtc_ticks : list RtcBtnSmokeEsp.iteration :=
  map (fun t => rtc_tick true t (t / 1000))
      [0; 5999; 6000; 6050; 11999; 30000; 30050; 35999; 36000].

(** Network time that arrives three seconds into the wait, network time
    that never arrives, and the board when the wait starts. *)
Definition sntp_after_3s (t : Z) : Z :=
  if t <? 33000 then 30 else 1700000000.

Definition sntp_never (t : Z) : Z := 30.

Definition sample_world : RtcBtnSmokeEsp.world :=
  {| RtcBtnSmokeEsp.clock := 30000;
     RtcBtnSmokeEsp.rtc := 1500000000;
     RtcBtnSmokeEsp.serial := [] |}.

(** A GPS logger that uploads at 100 s and 200 s of uptime and again when
    [millis()] reads 100000 for the second time, 2^32 ms later; between the
    last two the session is not ready.  A sensor logger whose DS3231 does
    not count. *)
Definition wrapped_gps_ticks : list GpsEsp.iteration :=
  [ gps_tick true sample_fix 100000;
    gps_tick true sample_fix 200000;
    gps_tick false sample_fix 4294967295;
    gps_tick false sample_fix 0;
    gps_tick true sample_fix 100000 ].

Definition stopped_rtc_ticks : list RtcBtnSmokeEsp.iteration :=
  [ rtc_tick true 6000 0; rtc_tick true 12000 0 ].

(** ** Vocabulary of the further properties *)

(** *** Calendar *)

(** The reference the conversion is compared with: the number of days from
    1970-01-01 to a date of the proleptic Gregorian calendar, by the usual
    era arithmetic (years start in March, 146097 days in 400 years). *)
Definition days_from_civil (y m d : Z) : Z :=
  let y' := if m <=? 2 then y - 1 else y in
  let era := y' / 400 in
  let yoe := y' - era * 400 in
  let mp := if 2 <? m then m - 3 else m + 9 in
  let doy := (153 * mp + 2) / 5 + d - 1 in
  let doe := yoe * 365 + yoe / 4 - yoe / 100 + doy in
  era * 146097 + doe - 719468.

(** The entry of the month table [gpsToEpoch] uses for year [y]. *)
Definition days_in_month (y m : Z) : Z :=
  let daysInMonth :=
    if GpsEsp.isLeapYear y then array_set GpsEsp.daysInMonth_init 2 29
    else GpsEsp.daysInMonth_init in
  match array_get daysInMonth m with
  | Some d => d
  | None => 0
  end.

(** A date and time of the calendar, in the years whose epochs fit. *)
Definition valid_timestamp (t : Z * Z * Z * Z * Z * Z) : Prop :=
  let '(y, mo, d, h, mi, s) := t in
  1970 <= y <= 2105 /\ 1 <= mo <= 12 /\ 1 <= d <= days_in_month y mo
  /\ tod_in_range h mi s.

(** Lexicographic order on (year, month, day, hour, minute, second). *)
Definition timestamp_lt (t1 t2 : Z * Z * Z * Z * Z * Z) : Prop :=
  let '(y1, mo1, d1, h1, mi1, s1) := t1 in
  let '(y2, mo2, d2, h2, mi2, s2) := t2 in
  y1 < y2
  \/ (y1 = y2
      /\ (mo1 < mo2
          \/ (mo1 = mo2
              /\ (d1 < d2
                  \/ (d1 = d2 /\ tod_lt (h1, mi1, s1) (h2, mi2, s2)))))).

Definition gpsToEpoch_at (t : Z * Z * Z * Z * Z * Z) : ub Z :=
  let '(y, mo, d, h, mi, s) := t in GpsEsp.gpsToEpoch y mo d h mi s.

(** Tables, checked by evaluation: the day count of the code at the first
    of each month against the reference, and the order of the reference
    over the months of 1970 to 2105. *)
Definition month_agrees (y days mo : Z) : bool :=
  match days_before_month (GpsEsp.isLeapYear y) days mo with
  | Some days' =>
      (days' =? days_from_civil y mo 1)
      && (0 <=? days')
      && ((days' + 30) * 86400 + 86399 <? ulong_modulus)
  | None => false
  end.

Definition year_agrees (y : Z) : bool :=
  match days_before_year y with
  | Some days => forallb (month_agrees y days) (Z_range 1 12)
  | None => false
  end.

Definition month_ordered (y m : Z) : bool :=
  (1 <=? days_in_month y m) && (days_in_month y m <=? 31)
  && (days_from_civil y 1 1 <=? days_from_civil y m 1)
  && (days_from_civil y m 1 + days_in_month y m
      <=? days_from_civil (y + 1) 1 1)
  && forallb
       (fun m2 =>
          if m <? m2
          then days_from_civil y m 1 + days_in_month y m
               <=? days_from_civil y m2 1
          else true)
       (Z_range 1 12).

Definition year_ordered (y : Z) : bool :=
  (days_from_civil y 1 1 <? days_from_civil (y + 1) 1 1)
  && forallb (month_ordered y) (Z_range 1 12).

(** The last step of [gpsToEpoch]: the scaling of the day count and the
    time of day. *)
Definition epoch_of_days (days hour minute second : Z) : Z :=
  to_ulong
    (to_ulong
       (to_ulong (to_ulong (days * 86400) + to_ulong (to_ulong hour * 3600))
        + to_ulong (to_ulong minute * 60))
     + to_ulong second).

(** [days += day - 1]. *)
Definition add_day (days day : Z) : ub Z :=
  if day - 1 <? long_min then None else Some (to_ulong (days + (day - 1))).

Definition timestamp_of (g : GpsEsp.TinyGPSPlus) : Z * Z * Z * Z * Z * Z :=
  (GpsEsp.date_year g, GpsEsp.date_month g, GpsEsp.date_day g,
   GpsEsp.time_hour g, GpsEsp.time_minute g, GpsEsp.time_second g).

(** The sum of [n] entries of the month table of year [y], from entry [i]. *)
Fixpoint month_days_from (y : Z) (n : nat) (i : Z) : Z :=
  match n with
  | O => 0
  | S n' => days_in_month y i + month_days_from y n' (i + 1)
  end.

(** *** Paths *)

(** The path the GPS logger builds in an iteration, and the one the sensor
    logger builds when the DS3231 was last set to [rtc_epoch]. *)
Definition gps_path (it : GpsEsp.iteration) : string :=
  (("/UsersData/" ++ GpsEsp.app_getUid it ++ "/gpsLogs")
   ++ "/" ++ String_of_ulong (GpsEsp.millis_key it))%string.

Definition rtc_key (rtc_epoch : Z) (it : RtcBtnSmokeEsp.iteration) : Z :=
  to_ulong (rtc_epoch + RtcBtnSmokeEsp.rtc_elapsed it).

Definition rtc_path (rtc_epoch : Z) (it : RtcBtnSmokeEsp.iteration) : string :=
  (("/UsersData/" ++ RtcBtnSmokeEsp.app_getUid it ++ "/readings")
   ++ "/" ++ String_of_ulong (rtc_key rtc_epoch it))%string.

(** No two of the strings are equal. *)
Definition pairwise_distinct (paths : list string) : Prop :=
  ForallOrdPairs (fun p q => p <> q) paths.

(** *** Further sample inputs *)

(** Globals whose last send was 7296 ms before [millis()] wraps, for both
    sketches; an iteration of a GPS logger that has heard nothing from its
    receiver after 10 s; three iterations of a sensor logger whose DS3231
    keeps step. *)
Definition gps_before_wrap : GpsEsp.globals :=
  {| GpsEsp.lastSendTime := 4294960000;
     GpsEsp.uid := "u1";
     GpsEsp.databasePath := "/UsersData/u1/gpsLogs" |}.

Definition rtc_before_wrap : RtcBtnSmokeEsp.machine :=
  {| RtcBtnSmokeEsp.lastSendTime := 4294960000;
     RtcBtnSmokeEsp.uid := "u1";
     RtcBtnSmokeEsp.databasePath := "/UsersData/u1/readings";
     RtcBtnSmokeEsp.parentPath := "/UsersData/u1/readings/1704294960";
     RtcBtnSmokeEsp.timestampEpoch := 1704294960;
     RtcBtnSmokeEsp.rtc_epoch := 1700000000 |}.

Definition silent_receiver : GpsEsp.TinyGPSPlus :=
  {| GpsEsp.location_isValid := false;
     GpsEsp.location_lat := 0%float;
     GpsEsp.location_lng := 0%float;
     GpsEsp.date_isValid := false;
     GpsEsp.time_isValid := false;
     GpsEsp.date_year := 2000;
     GpsEsp.date_month := 0;
     GpsEsp.date_day := 0;
     GpsEsp.time_hour := 0;
     GpsEsp.time_minute := 0;
     GpsEsp.time_second := 0;
     GpsEsp.charsProcessed := 0 |}.

Definition in_step_rtc_ticks : list RtcBtnSmokeEsp.iteration :=
  [ rtc_tick true 6000 6; rtc_tick true 9000 9; rtc_tick true 12000 12 ].

(** *** Boot *)

(** Two boards of the sensor logger that differ at most in what was
    printed, and two runs of [setup()] that end alike up to that. *)
Definition same_board (w1 w2 : RtcBtnSmokeEsp.world) : Prop :=
  RtcBtnSmokeEsp.clock w1 = RtcBtnSmokeEsp.clock w2
  /\ RtcBtnSmokeEsp.rtc w1 = RtcBtnSmokeEsp.rtc w2.

Definition same_outcome (o1 o2 : option RtcBtnSmokeEsp.world) : Prop :=
  match o1, o2 with
  | Some w1, Some w2 => same_board w1 w2
  | None, None => True
  | _, _ => False
  end.

(** A WiFi that is up from the simulated instant [t0] on, and one that
    never comes up. *)
Definition wifi_up_from (t0 t : Z) : bool := t0 <=? t.

Definition wifi_down (t : Z) : bool := false.

Definition cold_board : RtcBtnSmokeEsp.world :=
  {| RtcBtnSmokeEsp.clock := 0;
     RtcBtnSmokeEsp.rtc := 1500000000;
     RtcBtnSmokeEsp.serial := [] |}.

Definition cold_gps_board : GpsEsp.board :=
  {| GpsEsp.clock := 0; GpsEsp.serial := [] |}.

Definition sample_error : AsyncResult :=
  {| isResult := true;
     isEvent := true;
     isDebug := false;
     isError := true;
     available := false;
     result_uid := "RTDB_Send_Data";
     eventLog_message := "error";
     eventLog_code := -1;
     debug := EmptyString;
     error_message := "unauthorized";
     error_code := 401;
     c_str := EmptyString |}.

(** *** Scheduling against the uptime *)

(** The clock of a run is the uptime of the device in milliseconds, which
    does not decrease; [millis()] reads it modulo 2^32.  [ups] lists the
    uptime of each iteration and [L] is the uptime of the last send.  Then
    every upload is at least [interval] after the last send, and any two
    uploads are at least [interval] apart, wraps of [millis()] included. *)
Definition never_twice_in_uptime {S I : Type}
  (loop : S -> I -> list event * outcome S)
  (last : S -> Z) (now : I -> Z) (interval : Z) : Prop :=
  forall (s : S) (ticks : list I) (L : Z) (ups : list Z),
    last s = to_ulong L ->
    Sorted Z.le (L :: ups) ->
    map now ticks = map to_ulong ups ->
    let times := upload_times ups (run loop s ticks) in
    Forall (fun t => L + interval <= t) times /\ apart interval times.

(** The loop was not called from uptime [L], the last send, to uptime [u],
    [k] intervals or more later; the iteration [it] that resumes is allowed
    to send; the iterations [rest] follow within one interval.  Then
    exactly one upload is sent, by [it].  Stated for a stall of any
    length. *)
Definition one_upload_after_any_stall {S I : Type}
  (loop : S -> I -> list event * outcome S)
  (last : S -> Z) (now : I -> Z) (interval : Z) (may_send : I -> Prop) : Prop :=
  forall (s : S) (it : I) (rest : list I) (L u : Z) (rups : list Z) (k : Z),
    1 <= k ->
    last s = to_ulong L -> now it = to_ulong u ->
    L + k * interval <= u ->
    may_send it ->
    map now rest = map to_ulong rups ->
    Forall (fun r => u <= r < u + interval) rups ->
    exists e,
      fst (loop s it) = [e]
      /\ List.concat (run loop s (it :: rest)) = [e].

(** The same for the stalls whose length, modulo the 2^32 ms after which
    [millis()] reads the same again, is at least one interval; every stall
    shorter than 2^32 ms is one. *)
Definition one_upload_after_stall_in_uptime {S I : Type}
  (loop : S -> I -> list event * outcome S)
  (last : S -> Z) (now : I -> Z) (interval : Z) (may_send : I -> Prop) : Prop :=
  forall (s : S) (it : I) (rest : list I) (L u : Z) (rups : list Z) (k : Z),
    1 <= k ->
    last s = to_ulong L -> now it = to_ulong u ->
    L + k * interval <= u ->
    interval <= to_ulong (u - L) ->
    may_send it ->
    map now rest = map to_ulong rups ->
    Forall (fun r => u <= r < u + interval) rups ->
    exists e,
      fst (loop s it) = [e]
      /\ List.concat (run loop s (it :: rest)) = [e].

(** Both sketches 100 s after boot, having just sent; the uptimes of a run
    of the GPS logger across a wrap of [millis()]; a fix held by a GPS
    object whose character count has wrapped to 3. *)
Definition gps_sent_at_100s : GpsEsp.globals :=
  {| GpsEsp.lastSendTime := 100000;
     GpsEsp.uid := "u1";
     GpsEsp.databasePath := "/UsersData/u1/gpsLogs" |}.

Definition rtc_sent_at_100s : RtcBtnSmokeEsp.machine :=
  {| RtcBtnSmokeEsp.lastSendTime := 100000;
     RtcBtnSmokeEsp.uid := "u1";
     RtcBtnSmokeEsp.databasePath := "/UsersData/u1/readings";
     RtcBtnSmokeEsp.parentPath := "/UsersData/u1/readings/1700000100";
     RtcBtnSmokeEsp.timestampEpoch := 1700000100;
     RtcBtnSmokeEsp.rtc_epoch := 1700000000 |}.

Definition wrapped_gps_uptimes : list Z :=
  [100000; 200000; 4294967295; 4294967296; 4295067296].

Definition fix_after_count_wrap : GpsEsp.TinyGPSPlus :=
  {| GpsEsp.location_isValid := true;
     GpsEsp.location_lat := 12.3456789%float;
     GpsEsp.location_lng := (-77.1234567)%float;
     GpsEsp.date_isValid := true;
     GpsEsp.time_isValid := true;
     GpsEsp.date_year := 2024;
     GpsEsp.date_month := 3;
     GpsEsp.date_day := 1;
     GpsEsp.time_hour := 0;
     GpsEsp.time_minute := 0;
     GpsEsp.time_second := 0;
     GpsEsp.charsProcessed := 3 |}.

(** * Properties *)

(** ** Calendar to epoch *)

(** C2: the conversion meets the two test vectors of the specification,
    1970-01-01T00:00:00 and 2024-03-01T00:00:00 (the latter goes through the
    29-day February of 2024). *)
Theorem gpsToEpoch_test_vectors :
  GpsEsp.gpsToEpoch 1970 1 1 0 0 0 = Some 0 /\
  GpsEsp.gpsToEpoch 2024 3 1 0 0 0 = Some 1709251200.
Proof. split; vm_compute; reflexivity. Qed.

Example isLeapYear_vectors :
  map GpsEsp.isLeapYear [2000; 1900; 2024; 2023] = [true; false; true; false].
Proof. reflexivity. Qed.

(** The day count of [gpsToEpoch], before the time of day is added. *)
Lemma gpsToEpoch_split (y mo d h mi s : Z) :
  GpsEsp.gpsToEpoch y mo d h mi s
  = match GpsEsp.gpsToEpoch y mo d 0 0 0 with
    | Some e0 => Some (to_ulong (e0 + (h * 3600 + mi * 60 + s)))
    | None => None
    end.
Proof.
  unfold GpsEsp.gpsToEpoch.
  destruct (for_range 1970 y _ _) as [d1|]; [|reflexivity]. cbn [bind].
  destruct (for_range 1 mo _ _) as [d2|]; [|reflexivity]. cbn [bind].
  destruct (d - 1 <? long_min); [reflexivity|]. cbn [bind].
  f_equal. unfold to_ulong.
  assert (Hm : ulong_modulus <> 0) by (unfold ulong_modulus; lia).
  set (D := (d2 + (d - 1)) mod ulong_modulus).
  rewrite !Z.mul_0_l, !Z.mod_0_l, !Z.add_0_r by exact Hm.
  rewrite !Z.mod_mod by exact Hm.
  rewrite (Z.mul_mod_idemp_l h), (Z.mul_mod_idemp_l mi) by exact Hm.
  rewrite !Z.add_mod_idemp_l, !Z.add_mod_idemp_r by exact Hm.
  rewrite <- (Z.add_mod_idemp_l (_ mod _ + _ mod _)) by exact Hm.
  rewrite <- Z.add_mod by exact Hm.
  rewrite Z.add_mod_idemp_l by exact Hm.
  f_equal. lia.
Qed.

Lemma tod_seconds_lt (h1 mi1 s1 h2 mi2 s2 : Z) :
  tod_in_range h1 mi1 s1 -> tod_in_range h2 mi2 s2 ->
  tod_lt (h1, mi1, s1) (h2, mi2, s2) ->
  0 <= h1 * 3600 + mi1 * 60 + s1 < h2 * 3600 + mi2 * 60 + s2
  /\ h2 * 3600 + mi2 * 60 + s2 <= 86399.
Proof. unfold tod_in_range, tod_lt. lia. Qed.

Lemma epoch_increases_within_day (y mo d h1 mi1 s1 h2 mi2 s2 e0 : Z) :
  tod_in_range h1 mi1 s1 -> tod_in_range h2 mi2 s2 ->
  tod_lt (h1, mi1, s1) (h2, mi2, s2) ->
  GpsEsp.gpsToEpoch y mo d 0 0 0 = Some e0 ->
  e0 + 86399 < ulong_modulus ->
  epoch_increases y mo d (h1, mi1, s1) (h2, mi2, s2).
Proof.
  intros R1 R2 Hlt He0 Hfit.
  destruct (tod_seconds_lt _ _ _ _ _ _ R1 R2 Hlt) as [Hsec Hmax].
  assert (H0 : 0 <= e0).
  { rewrite gpsToEpoch_split in He0.
    destruct (GpsEsp.gpsToEpoch y mo d 0 0 0); [|discriminate].
    injection He0 as <-. apply Z.mod_pos_bound. reflexivity. }
  unfold epoch_increases.
  rewrite (gpsToEpoch_split y mo d h1), (gpsToEpoch_split y mo d h2), He0.
  eexists; eexists; repeat split.
  unfold to_ulong. rewrite !Z.mod_small by lia. lia.
Qed.

(** C9, as amended: for a fixed date with year at least 1970 whose
    conversion is defined and whose last second still fits the 32-bit
    [unsigned long], a lexicographically later in-range time of day converts
    to a strictly larger epoch. *)
Theorem gpsToEpoch_time_of_day_increasing
  (y mo d h1 mi1 s1 h2 mi2 s2 e0 : Z) :
  1970 <= y ->
  tod_in_range h1 mi1 s1 -> tod_in_range h2 mi2 s2 ->
  tod_lt (h1, mi1, s1) (h2, mi2, s2) ->
  GpsEsp.gpsToEpoch y mo d 0 0 0 = Some e0 ->
  e0 + 86399 < ulong_modulus ->
  epoch_increases y mo d (h1, mi1, s1) (h2, mi2, s2).
Proof. intros _. apply epoch_increases_within_day. Qed.

Lemma gpsToEpoch_time_of_day_increasing_witness :
  epoch_increases 2024 3 1 (10, 20, 30) (10, 20, 31).
Proof.
  apply (gpsToEpoch_time_of_day_increasing 2024 3 1 10 20 30 10 20 31 1709251200);
    unfold tod_in_range, tod_lt, ulong_modulus;
    solve [lia | vm_compute; reflexivity].
Defined.

(** C9, as stated, fails where the epoch passes 2^32: 2106-02-07T06:28:15
    converts to 4294967295 and the next second to 0.  It also has nothing
    to compare where the conversion is undefined, as for a month 14. *)
Lemma gpsToEpoch_wraps_in_2106 :
  GpsEsp.gpsToEpoch 2106 2 7 6 28 15 = Some 4294967295
  /\ GpsEsp.gpsToEpoch 2106 2 7 6 28 16 = Some 0
  /\ 1970 <= 2106
  /\ tod_in_range 6 28 15 /\ tod_in_range 6 28 16
  /\ tod_lt (6, 28, 15) (6, 28, 16)
  /\ ~ epoch_increases 2106 2 7 (6, 28, 15) (6, 28, 16)
  /\ GpsEsp.gpsToEpoch 2024 14 1 0 0 0 = None
  /\ ~ epoch_increases 2024 14 1 (0, 0, 0) (0, 0, 1).
Proof.
  assert (E1 : GpsEsp.gpsToEpoch 2106 2 7 6 28 15 = Some 4294967295)
    by (vm_compute; reflexivity).
  assert (E2 : GpsEsp.gpsToEpoch 2106 2 7 6 28 16 = Some 0)
    by (vm_compute; reflexivity).
  assert (E3 : GpsEsp.gpsToEpoch 2024 14 1 0 0 0 = None)
    by (vm_compute; reflexivity).
  repeat split; try assumption; try (unfold tod_lt; lia).
  - unfold epoch_increases. intros (e1 & e2 & H1 & H2 & Hlt).
    rewrite E1 in H1. rewrite E2 in H2.
    injection H1 as <-. injection H2 as <-. lia.
  - unfold epoch_increases. intros (e1 & e2 & H1 & _).
    rewrite E3 in H1. discriminate H1.
Qed.

(** Every calendar date of the years 1970 to 2105 meets the two conditions
    of the amended statement. *)
Lemma In_Z_range (lo : Z) (n : nat) (z : Z) :
  lo <= z < lo + Z.of_nat n -> In z (Z_range lo n).
Proof.
  intros H. unfold Z_range. apply in_map_iff.
  exists (Z.to_nat (z - lo)). split; [lia|].
  apply in_seq. lia.
Qed.

Lemma gpsToEpoch_by_stage (y mo d : Z) :
  GpsEsp.gpsToEpoch y mo d 0 0 0
  = (days <- days_before_year y ;;
     days <- days_before_month (GpsEsp.isLeapYear y) days mo ;;
     midnight_of_day days d).
Proof. reflexivity. Qed.

Lemma midnight_of_day_exact (days d : Z) :
  0 <= days -> (days + 30) * 86400 + 86399 < ulong_modulus -> 1 <= d <= 31 ->
  midnight_of_day days d = Some ((days + (d - 1)) * 86400).
Proof.
  unfold ulong_modulus. intros H0 Hfit Hd. unfold midnight_of_day.
  replace (d - 1 <? long_min) with false
    by (symmetry; apply Z.ltb_ge; unfold long_min; lia).
  cbn [bind]. f_equal. unfold to_ulong, ulong_modulus.
  rewrite !Z.mul_0_l, !Z.mod_0_l, !Z.add_0_r by lia.
  rewrite !Z.mod_mod by lia.
  rewrite (Z.mod_small (days + (d - 1))) by lia.
  apply Z.mod_small. lia.
Qed.

Lemma calendar_days_fit_table :
  forallb year_fits (Z_range 1970 136) = true.
Proof. vm_compute. reflexivity. Qed.

Lemma calendar_days_fit (y mo d : Z) :
  1970 <= y <= 2105 -> 1 <= mo <= 12 -> 1 <= d <= 31 ->
  exists e0,
    GpsEsp.gpsToEpoch y mo d 0 0 0 = Some e0 /\ e0 + 86399 < ulong_modulus.
Proof.
  intros Hy Hmo Hd.
  pose proof calendar_days_fit_table as T.
  rewrite forallb_forall in T.
  specialize (T y (In_Z_range 1970 136 y ltac:(lia))).
  unfold year_fits in T. rewrite gpsToEpoch_by_stage.
  destruct (days_before_year y) as [days|]; [|discriminate]. cbn [bind].
  rewrite forallb_forall in T.
  specialize (T mo (In_Z_range 1 12 mo ltac:(lia))).
  unfold month_fits in T.
  destruct (days_before_month _ days mo) as [days'|]; [|discriminate].
  cbn [bind].
  apply andb_true_iff in T. destruct T as [T0 T1].
  apply Z.leb_le in T0. apply Z.ltb_lt in T1.
  exists ((days' + (d - 1)) * 86400). split.
  - apply midnight_of_day_exact; assumption.
  - unfold ulong_modulus in *. lia.
Qed.

(** ** The sentinel of [getGPSEpochUTC] *)

Lemma getGPSEpochUTC_invalid (g : GpsEsp.TinyGPSPlus) :
  GpsEsp.date_isValid g = false \/ GpsEsp.time_isValid g = false ->
  GpsEsp.getGPSEpochUTC g = Some 0.
Proof.
  unfold GpsEsp.getGPSEpochUTC.
  intros [H | H]; rewrite H.
  - reflexivity.
  - rewrite andb_false_r. reflexivity.
Qed.

Lemma gps_gate_closed (st : GpsEsp.globals) (it : GpsEsp.iteration) :
  GpsEsp.app_ready it && GpsEsp.location_isValid (GpsEsp.gps it)
    && GpsEsp.date_isValid (GpsEsp.gps it)
    && GpsEsp.time_isValid (GpsEsp.gps it) = false ->
  GpsEsp.upload st it = Some (st, []).
Proof. unfold GpsEsp.upload. intros ->. reflexivity. Qed.

Lemma gps_loop_gate_closed (st : GpsEsp.globals) (it : GpsEsp.iteration) :
  GpsEsp.app_ready it && GpsEsp.location_isValid (GpsEsp.gps it)
    && GpsEsp.date_isValid (GpsEsp.gps it)
    && GpsEsp.time_isValid (GpsEsp.gps it) = false ->
  GpsEsp.loop st it
  = ([], if GpsEsp.failsafe it then Halted else Running st).
Proof.
  intros H. unfold GpsEsp.loop. rewrite (gps_gate_closed st it H). reflexivity.
Qed.

(** C5: when the date or the time of the GPS object is not valid,
    [getGPSEpochUTC] returns the sentinel 0 and the iteration of [loop()]
    sends no upload. *)
Theorem clock_unavailable_suppresses (st : GpsEsp.globals) (it : GpsEsp.iteration) :
  GpsEsp.date_isValid (GpsEsp.gps it) = false
  \/ GpsEsp.time_isValid (GpsEsp.gps it) = false ->
  GpsEsp.getGPSEpochUTC (GpsEsp.gps it) = Some 0
  /\ fst (GpsEsp.loop st it) = [].
Proof.
  intros H. split.
  - apply getGPSEpochUTC_invalid. exact H.
  - rewrite gps_loop_gate_closed; [reflexivity|].
    destruct H as [H | H]; rewrite H.
    + rewrite andb_false_r. reflexivity.
    + apply andb_false_r.
Qed.

Lemma clock_unavailable_suppresses_witness :
  GpsEsp.getGPSEpochUTC sample_no_time = Some 0
  /\ fst (GpsEsp.loop GpsEsp.boot (gps_tick true sample_no_time 120000)) = [].
Proof.
  apply (clock_unavailable_suppresses GpsEsp.boot
           (gps_tick true sample_no_time 120000)).
  right. reflexivity.
Defined.

(** C10: a valid GPS date and time equal to 1970-01-01T00:00:00 makes
    [getGPSEpochUTC] return 0, which is also what it returns for any GPS
    object whose date or time is not valid: the return value alone does not
    tell the two apart. *)
Theorem sentinel_ambiguous (g g' : GpsEsp.TinyGPSPlus) :
  GpsEsp.date_isValid g = true ->
  GpsEsp.time_isValid g = true ->
  (GpsEsp.date_year g, GpsEsp.date_month g, GpsEsp.date_day g) = (1970, 1, 1) ->
  (GpsEsp.time_hour g, GpsEsp.time_minute g, GpsEsp.time_second g) = (0, 0, 0) ->
  GpsEsp.date_isValid g' = false \/ GpsEsp.time_isValid g' = false ->
  GpsEsp.getGPSEpochUTC g = Some 0
  /\ GpsEsp.getGPSEpochUTC g' = GpsEsp.getGPSEpochUTC g.
Proof.
  intros Hd Ht Hdate Htime Hinv.
  assert (Hg : GpsEsp.getGPSEpochUTC g = Some 0).
  { unfold GpsEsp.getGPSEpochUTC. rewrite Hd, Ht.
    injection Hdate as -> -> ->. injection Htime as -> -> ->.
    vm_compute. reflexivity. }
  split; [exact Hg|].
  rewrite Hg. apply getGPSEpochUTC_invalid. exact Hinv.
Qed.

Lemma sentinel_ambiguous_witness :
  GpsEsp.getGPSEpochUTC epoch_start = Some 0
  /\ GpsEsp.getGPSEpochUTC sample_no_time = GpsEsp.getGPSEpochUTC epoch_start.
Proof.
  apply (sentinel_ambiguous epoch_start sample_no_time);
    solve [reflexivity | right; reflexivity].
Defined.

(** ** Truncation of coordinates *)

(** C7: the multiply, cast, divide sequence applied to 12.3456789 yields
    12.34567, not the rounded 12.34568; the cast drops the fraction .89 of
    1234567.89..., and toward zero for a negative coordinate as well. *)
Theorem truncate5_truncates :
  Double.to_long (PrimFloat.mul 12.3456789%float (Double.of_long 100000))
  = Some 1234567
  /\ GpsEsp.truncate5 12.3456789%float = Some 12.34567%float
  /\ GpsEsp.truncate5 12.3456789%float <> Some 12.34568%float
  /\ GpsEsp.truncate5 (-12.3456789)%float = Some (-12.34567)%float.
Proof.
  repeat split; try (vm_compute; reflexivity).
  intros H.
  apply (f_equal (fun o => match o with
                           | Some x => Prim2SF x
                           | None => S754_nan
                           end)) in H.
  vm_compute in H. discriminate H.
Qed.

(** ** The payload of a GPS upload *)

(** Every upload of the GPS logger carries three fields in the configured
    order; longitude and timestamp are the computed values, latitude is the
    literal of line 205. *)
Lemma gps_upload_payload (st st' : GpsEsp.globals) (it : GpsEsp.iteration)
  (e : event) :
  GpsEsp.upload st it = Some (st', [e]) ->
  exists lng epoch,
    GpsEsp.truncate5 (GpsEsp.location_lng (GpsEsp.gps it)) = Some lng
    /\ GpsEsp.getGPSEpochUTC (GpsEsp.gps it) = Some epoch
    /\ event_json e = [ (GpsEsp.latPath, JText "0.0000000");
                        (GpsEsp.lngPath, JDouble lng);
                        (GpsEsp.timePath, JULong epoch) ].
Proof.
  unfold GpsEsp.upload.
  destruct (_ && _ && _ && _); [|discriminate].
  destruct (_ <=? _); [|discriminate].
  destruct (GpsEsp.getGPSEpochUTC _) as [epoch|]; [|discriminate].
  destruct (GpsEsp.truncate5 (GpsEsp.location_lat _)) as [lat|]; [|discriminate].
  destruct (GpsEsp.truncate5 (GpsEsp.location_lng _)) as [lng|]; [|discriminate].
  cbn [bind]. intros H. injection H as _ <-.
  exists lng, epoch. repeat split.
Qed.

(** C1, on the code: with a fix at latitude 12.3456789 the upload is sent
    with the three fields, longitude and timestamp as computed, but the
    latitude field holds the literal "0.0000000" and not the truncated
    latitude 12.34567. *)
Theorem gps_upload_latitude_is_placeholder :
  fst (GpsEsp.loop GpsEsp.boot (gps_tick true sample_fix 120000))
  = [ Database_set "/UsersData/u1/gpsLogs/120000"
        [ ("/latitude"%string, JText "0.0000000");
          ("/longitude"%string, JDouble (-77.12345)%float);
          ("/timestamp"%string, JULong 1709251200) ]
        "GPS_Data" ]
  /\ GpsEsp.truncate5 (GpsEsp.location_lat sample_fix) = Some 12.34567%float
  /\ GpsEsp.truncate5 (GpsEsp.location_lng sample_fix) = Some (-77.12345)%float.
Proof. repeat split; vm_compute; reflexivity. Qed.

(** ** Uploads wait for the session *)

Lemma run_hung {I : Type} (ticks : list I) :
  List.concat (map (fun _ : I => @nil event) ticks) = [].
Proof. induction ticks as [|i rest IH]; [reflexivity | exact IH]. Qed.

Lemma gps_not_ready_silent (ticks : list GpsEsp.iteration) :
  forall st : GpsEsp.globals,
    Forall (fun it => GpsEsp.app_ready it = false) ticks ->
    List.concat (run GpsEsp.loop st ticks) = [].
Proof.
  induction ticks as [|it rest IH]; intros st Hall; [reflexivity|].
  inversion Hall as [|? ? Hit Hrest]; subst.
  cbn [run]. rewrite gps_loop_gate_closed by (rewrite Hit; reflexivity).
  cbn [List.concat app].
  destruct (GpsEsp.failsafe it).
  - apply (@run_hung GpsEsp.iteration).
  - apply IH. exact Hrest.
Qed.

Lemma rtc_not_ready_silent (ticks : list RtcBtnSmokeEsp.iteration) :
  forall st : RtcBtnSmokeEsp.machine,
    Forall (fun it => RtcBtnSmokeEsp.app_ready it = false) ticks ->
    List.concat (run RtcBtnSmokeEsp.loop st ticks) = [].
Proof.
  induction ticks as [|it rest IH]; intros st Hall; [reflexivity|].
  inversion Hall as [|? ? Hit Hrest]; subst.
  cbn [run]. unfold RtcBtnSmokeEsp.loop at 1. rewrite Hit.
  cbn [List.concat app]. apply IH. exact Hrest.
Qed.

(** C4: when [app.ready()] is false at every iteration, neither sketch
    sends any upload, whatever the clock readings are. *)
Theorem auth_not_ready_no_dispatch
  (gps_ticks : list GpsEsp.iteration) (rtc_ticks : list RtcBtnSmokeEsp.iteration)
  (g : GpsEsp.globals) (m : RtcBtnSmokeEsp.machine) :
  Forall (fun it => GpsEsp.app_ready it = false) gps_ticks ->
  Forall (fun it => RtcBtnSmokeEsp.app_ready it = false) rtc_ticks ->
  List.length (List.concat (run GpsEsp.loop g gps_ticks)) = 0%nat
  /\ List.length (List.concat (run RtcBtnSmokeEsp.loop m rtc_ticks)) = 0%nat.
Proof.
  intros Hg Hr.
  rewrite (gps_not_ready_silent gps_ticks g Hg).
  rewrite (rtc_not_ready_silent rtc_ticks m Hr).
  split; reflexivity.
Qed.

Lemma auth_not_ready_no_dispatch_witness :
  List.length (List.concat (run GpsEsp.loop GpsEsp.boot
                    [gps_tick false sample_fix 70000;
                     gps_tick false sample_fix 4000000])) = 0%nat
  /\ List.length (List.concat (run RtcBtnSmokeEsp.loop rtc_boot
                       [rtc_tick false 7000 7; rtc_tick false 900000 900])) = 0%nat.
Proof.
  apply auth_not_ready_no_dispatch;
    repeat (constructor; try reflexivity).
Defined.

(** ** Scheduling *)

Lemma upload_times_hung {I : Type} (nows : list Z) (rest : list I) :
  upload_times nows (map (fun _ : I => @nil event) rest) = [].
Proof.
  unfold upload_times. revert nows.
  induction rest as [|i rest IH]; intros [|t nows]; try reflexivity.
  cbn. apply IH.
Qed.

Lemma upload_times_cons (t : Z) (nows : list Z) (evs : list event)
  (outs : list (list event)) :
  upload_times (t :: nows) (evs :: outs)
  = map (fun _ => t) evs ++ upload_times nows outs.
Proof. reflexivity. Qed.

Lemma to_ulong_small (z : Z) : 0 <= z < ulong_modulus -> to_ulong z = z.
Proof. intros H. apply Z.mod_small. exact H. Qed.

Lemma Sorted_le_head (a : Z) (l : list Z) :
  Sorted Z.le (a :: l) -> Forall (fun t => a <= t) l.
Proof.
  intros H. apply Sorted_StronglySorted in H.
  - inversion H; assumption.
  - intros x y z. apply Z.le_trans.
Qed.

Lemma Sorted_le_skip (a b : Z) (l : list Z) :
  Sorted Z.le (a :: b :: l) -> Sorted Z.le (a :: l).
Proof.
  intros H. pose proof (Sorted_le_head _ _ H) as Hall.
  inversion H as [|? ? Hs _]; subst. inversion Hs as [|? ? Hs' _]; subst.
  constructor; [exact Hs'|].
  destruct l as [|c l]; constructor.
  inversion Hall as [|? ? _ Hall']; subst.
  inversion Hall'; assumption.
Qed.

Section Scheduler.

Context {S I : Type}.
Variable loop : S -> I -> list event * outcome S.
Variable last : S -> Z.
Variable now : I -> Z.
Variable interval : Z.
Hypothesis interval_range : 0 <= interval <= ulong_modulus.
Hypothesis loop_schedules : schedules loop last now interval.

Lemma schedules_at_most_one : at_most_one_per_tick loop.
Proof.
  intros s ticks. revert s.
  induction ticks as [|i rest IH]; intros s; [constructor|].
  cbn [run]. pose proof (loop_schedules s i) as H.
  destruct (loop s i) as [evs o].
  constructor.
  - destruct evs as [|e [|e' evs]]; cbn; solve [lia | contradiction].
  - destruct o; [apply IH | |];
      (clear; induction rest; constructor; cbn; [lia | assumption]).
Qed.

Lemma schedules_never_twice : never_twice_within_interval loop last now interval.
Proof.
  intros s ticks. revert s.
  induction ticks as [|i rest IH]; intros s Hs Hsorted Hrange times.
  { split; constructor. }
  subst times. cbn [map run].
  pose proof (loop_schedules s i) as H.
  destruct (loop s i) as [evs o].
  rewrite upload_times_cons.
  cbn [map] in Hsorted, Hrange.
  pose proof (Sorted_le_head _ _ Hsorted) as Hge.
  inversion Hge as [|? ? Hi _]; subst.
  inversion Hrange as [|? ? Hnow Hrange']; subst.
  destruct evs as [|e [|e' evs]]; [| |contradiction].
  - (* nothing sent *)
    cbn [map app].
    destruct o as [s'| |]; try (rewrite upload_times_hung; split; constructor).
    specialize (H s' eq_refl).
    specialize (IH s'). rewrite H in IH.
    apply IH; [exact Hs | | exact Hrange'].
    apply Sorted_le_skip with (b := now i). exact Hsorted.
  - (* one request *)
    destruct H as [Hlate Hlast].
    rewrite to_ulong_small in Hlate by (unfold is_ulong in *; lia).
    cbn [map app].
    destruct o as [s'| |];
      try (rewrite upload_times_hung; split;
           [constructor; [lia | constructor] | constructor; constructor]).
    specialize (Hlast s' eq_refl).
    specialize (IH s'). rewrite Hlast in IH.
    destruct IH as [IHlate IHapart];
      [exact Hnow | inversion Hsorted; assumption | exact Hrange' |].
    split.
    + constructor; [lia|].
      eapply Forall_impl; [|exact IHlate]. cbn. intros t Ht. lia.
    + constructor; [exact IHlate | exact IHapart].
Qed.

(** Iterations that follow the last send within one interval send nothing. *)
Lemma schedules_quiet (rest : list I) :
  forall s : S,
    Forall (fun r => last s <= now r < last s + interval) rest ->
    List.concat (run loop s rest) = [].
Proof.
  induction rest as [|r rest IH]; intros s Hrest; [reflexivity|].
  inversion Hrest as [|? ? Hr Hrest']; subst.
  cbn [run]. pose proof (loop_schedules s r) as H.
  destruct (loop s r) as [evs o].
  destruct evs as [|e [|e' evs]]; [| |contradiction].
  - cbn [List.concat app].
    destruct o as [s'| |]; try apply run_hung.
    specialize (H s' eq_refl). apply IH. rewrite H. exact Hrest'.
  - destruct H as [Hlate _].
    rewrite to_ulong_small in Hlate by lia. lia.
Qed.

(** A loop that sends when [may_send] holds and the interval has elapsed
    sends exactly one request after a stall. *)
Hypothesis may_send : I -> Prop.
Hypothesis loop_sends :
  forall (s : S) (i : I),
    may_send i -> interval <= to_ulong (now i - last s) ->
    exists e, fst (loop s i) = [e].

Lemma schedules_one_after_stall :
  one_upload_after_stall loop last now interval may_send.
Proof.
  intros s it rest k Hk Hs Hnow Hstall Hopen Hrest.
  assert (Hlate : interval <= to_ulong (now it - last s)).
  { rewrite to_ulong_small by (unfold is_ulong in *; nia). nia. }
  destruct (loop_sends s it Hopen Hlate) as [e He].
  exists e. split; [exact He|].
  cbn [run]. pose proof (loop_schedules s it) as H.
  destruct (loop s it) as [evs o]. cbn [fst] in He. subst evs.
  destruct H as [_ Hlast].
  cbn [List.concat app]. f_equal.
  destruct o as [s'| |]; try apply run_hung.
  apply schedules_quiet. rewrite (Hlast s' eq_refl). exact Hrest.
Qed.

End Scheduler.

Lemma gps_loop_schedules :
  schedules GpsEsp.loop GpsEsp.lastSendTime GpsEsp.millis_gate
            GpsEsp.sendInterval.
Proof.
  intros s i. unfold GpsEsp.loop, GpsEsp.upload.
  destruct (_ && _ && _ && _).
  - destruct (GpsEsp.sendInterval <=? _) eqn:Hlate.
    + destruct (GpsEsp.getGPSEpochUTC _) as [epoch|]; cbn [bind];
        [|intros s'; discriminate].
      destruct (GpsEsp.truncate5 (GpsEsp.location_lat _)) as [lat|];
        cbn [bind]; [|intros s'; discriminate].
      destruct (GpsEsp.truncate5 (GpsEsp.location_lng _)) as [lng|];
        cbn [bind]; [|intros s'; discriminate].
      split; [apply Z.leb_le; exact Hlate|].
      intros s'. destruct (GpsEsp.failsafe i); [discriminate|].
      intros H. injection H as <-. reflexivity.
    + intros s'. destruct (GpsEsp.failsafe i); [discriminate|].
      intros H. injection H as <-. reflexivity.
  - intros s'. destruct (GpsEsp.failsafe i); [discriminate|].
    intros H. injection H as <-. reflexivity.
Qed.

Lemma gps_loop_sends (s : GpsEsp.globals) (i : GpsEsp.iteration) :
  gps_may_send i ->
  GpsEsp.sendInterval <= to_ulong (GpsEsp.millis_gate i - GpsEsp.lastSendTime s) ->
  exists e, fst (GpsEsp.loop s i) = [e].
Proof.
  intros (Hr & Hl & Hd & Ht & epoch & lat & lng & He & Hlat & Hlng) Hlate.
  unfold GpsEsp.loop, GpsEsp.upload.
  rewrite Hr, Hl, Hd, Ht. cbn [andb].
  apply Z.leb_le in Hlate. rewrite Hlate, He, Hlat, Hlng. cbn [bind fst].
  eexists. reflexivity.
Qed.

Lemma rtc_loop_schedules :
  schedules RtcBtnSmokeEsp.loop RtcBtnSmokeEsp.lastSendTime
            RtcBtnSmokeEsp.millis_now RtcBtnSmokeEsp.sendInterval.
Proof.
  intros s i. unfold RtcBtnSmokeEsp.loop.
  destruct (RtcBtnSmokeEsp.app_ready i).
  - destruct (RtcBtnSmokeEsp.sendInterval <=? _) eqn:Hlate.
    + split; [apply Z.leb_le; exact Hlate|].
      intros s' H. injection H as <-. reflexivity.
    + intros s' H. injection H as <-. reflexivity.
  - intros s' H. injection H as <-. reflexivity.
Qed.

Lemma rtc_loop_sends (s : RtcBtnSmokeEsp.machine) (i : RtcBtnSmokeEsp.iteration) :
  rtc_may_send i ->
  RtcBtnSmokeEsp.sendInterval
  <= to_ulong (RtcBtnSmokeEsp.millis_now i - RtcBtnSmokeEsp.lastSendTime s) ->
  exists e, fst (RtcBtnSmokeEsp.loop s i) = [e].
Proof.
  unfold rtc_may_send. intros Hr Hlate. unfold RtcBtnSmokeEsp.loop.
  apply Z.leb_le in Hlate. rewrite Hr, Hlate. cbn [fst].
  eexists. reflexivity.
Qed.

Example sample_gps_upload_times :
  upload_times (map GpsEsp.millis_gate sample_gps_ticks)
    (run GpsEsp.loop GpsEsp.boot sample_gps_ticks)
  = [60000; 300000; 360000].
Proof. vm_compute. reflexivity. Qed.

Example sample_rtc_upload_times :
  upload_times (map RtcBtnSmokeEsp.millis_now sample_rtc_ticks)
    (run RtcBtnSmokeEsp.loop rtc_boot sample_rtc_ticks)
  = [6000; 30000; 36000].
Proof. vm_compute. reflexivity. Qed.

Lemma sample_fix_defined : fix_defined sample_fix.
Proof.
  exists 1709251200, 12.34567%float, (-77.12345)%float.
  repeat split; vm_compute; reflexivity.
Defined.

(** ** Reconciliation with network time at boot *)

Lemma to_ulong_sub (a b : Z) : to_ulong (to_ulong a - to_ulong b) = to_ulong (a - b).
Proof. unfold to_ulong. symmetry. apply Zminus_mod. Qed.

Lemma last_app_singleton (l : list string) (x d : string) : last (l ++ [x]) d = x.
Proof. apply last_last. Qed.

Section NtpSync.

Variable time : Z -> Z.
Variable c0 : Z.

(** The wait stops at the first poll that reads a plausible epoch, or at the
    poll of the twentieth half second; [n] polls are left. *)
Lemma ntp_wait_stops (n : nat) :
  forall (fuel : nat) (w : RtcBtnSmokeEsp.world),
    (n <= fuel)%nat -> (n <= 20)%nat ->
    RtcBtnSmokeEsp.clock w = c0 + 500 * (20 - Z.of_nat n) ->
    exists k w',
      RtcBtnSmokeEsp.ntp_wait time fuel (to_ulong c0)
        (time (RtcBtnSmokeEsp.clock w)) w
      = Some (time (RtcBtnSmokeEsp.clock w'), w')
      /\ 20 - Z.of_nat n <= k <= 20
      /\ RtcBtnSmokeEsp.clock w' = c0 + 500 * k
      /\ RtcBtnSmokeEsp.rtc w' = RtcBtnSmokeEsp.rtc w
      /\ (forall j, 20 - Z.of_nat n <= j < k ->
                    time (c0 + 500 * j) < RtcBtnSmokeEsp.ntp_floor)
      /\ (time (RtcBtnSmokeEsp.clock w') < RtcBtnSmokeEsp.ntp_floor -> k = 20).
Proof.
  induction n as [|n IH]; intros fuel w Hfuel Hn Hclock.
  - (* the deadline is reached *)
    exists 20, w. repeat split; try lia.
    destruct fuel; cbn [RtcBtnSmokeEsp.ntp_wait];
      unfold RtcBtnSmokeEsp.millis; rewrite to_ulong_sub, Hclock;
      replace (c0 + 500 * (20 - Z.of_nat 0) - c0) with 10000 by lia;
      change (to_ulong 10000 <? RtcBtnSmokeEsp.ntp_timeout) with false;
      rewrite andb_false_r; reflexivity.
  - destruct fuel as [|fuel]; [lia|].
    cbn [RtcBtnSmokeEsp.ntp_wait].
    unfold RtcBtnSmokeEsp.millis at 1. rewrite to_ulong_sub, Hclock.
    replace (c0 + 500 * (20 - Z.of_nat (S n)) - c0)
      with (500 * (20 - Z.of_nat (S n))) by lia.
    rewrite to_ulong_small by (unfold ulong_modulus; lia).
    replace (500 * (20 - Z.of_nat (S n)) <? RtcBtnSmokeEsp.ntp_timeout)
      with true
      by (symmetry; apply Z.ltb_lt; unfold RtcBtnSmokeEsp.ntp_timeout; lia).
    rewrite andb_true_r.
    destruct (time (c0 + 500 * (20 - Z.of_nat (S n))) <? RtcBtnSmokeEsp.ntp_floor)
      eqn:Hnow.
    + (* not yet: wait half a second and poll again *)
      set (w1 := RtcBtnSmokeEsp.delay 500 (RtcBtnSmokeEsp.print "." w)).
      assert (Hc1 : RtcBtnSmokeEsp.clock w1 = c0 + 500 * (20 - Z.of_nat n))
        by (unfold w1, RtcBtnSmokeEsp.delay, RtcBtnSmokeEsp.print;
            cbn [RtcBtnSmokeEsp.clock]; rewrite Hclock; lia).
      destruct (IH fuel w1 ltac:(lia) ltac:(lia) Hc1)
        as (k & w' & Hrun & Hk & Hclock' & Hrtc & Hbefore & Hlast).
      exists k, w'. rewrite Hrun. repeat split; try lia; try assumption.
      intros j Hj. apply Z.ltb_lt in Hnow.
      destruct (Z.eq_dec j (20 - Z.of_nat (S n))) as [->|Hne];
        [exact Hnow | apply Hbefore; lia].
    + (* a plausible epoch *)
      exists (20 - Z.of_nat (S n)), w.
      apply Z.ltb_ge in Hnow.
      rewrite Hclock. repeat split; lia.
Qed.

End NtpSync.

(** The loop of the sensor logger decides on [app.ready()] and on the
    instant of the last send only. *)
Lemma rtc_loop_counts (ticks : list RtcBtnSmokeEsp.iteration) :
  forall m1 m2 : RtcBtnSmokeEsp.machine,
    RtcBtnSmokeEsp.lastSendTime m1 = RtcBtnSmokeEsp.lastSendTime m2 ->
    upload_counts (run RtcBtnSmokeEsp.loop m1 ticks)
    = upload_counts (run RtcBtnSmokeEsp.loop m2 ticks).
Proof.
  induction ticks as [|it rest IH]; intros m1 m2 Hlast; [reflexivity|].
  cbn [run]. unfold RtcBtnSmokeEsp.loop at 1 3. rewrite Hlast.
  destruct (RtcBtnSmokeEsp.app_ready it);
    [destruct (RtcBtnSmokeEsp.sendInterval <=? _)|];
    cbn [upload_counts map]; f_equal; apply IH; cbn; congruence.
Qed.

(** C6: the wait for network time at boot ends within the timeout of 10000
    ms (at most 20 polls half a second apart); when one of these polls
    reads an epoch of at least 1600000000 the RTC is set to it; when none
    does the RTC is left as it was and the failure is only printed; the
    uploads of the loop are the same in both cases. *)
Theorem ntp_reconciliation (time : Z -> Z) (fuel : nat)
  (w : RtcBtnSmokeEsp.world) :
  (20 <= fuel)%nat ->
  (forall t, is_ulong (time t)) ->
  ntp_reconciled time fuel w.
Proof.
  intros Hfuel Htime.
  set (w0 := RtcBtnSmokeEsp.print RtcBtnSmokeEsp.msg_syncing w).
  destruct (ntp_wait_stops time (RtcBtnSmokeEsp.clock w) 20 fuel w0 Hfuel
              (le_n 20) ltac:(cbn; lia))
    as (k & w1 & Hrun & Hk & Hclock & Hrtc & Hbefore & Hlast).
  change (Z.of_nat 20) with 20 in *. replace (20 - 20) with 0 in * by lia.
  assert (Hsync : exists w',
    RtcBtnSmokeEsp.ntp_sync time fuel w = Some w'
    /\ RtcBtnSmokeEsp.clock w' = RtcBtnSmokeEsp.clock w1
    /\ (RtcBtnSmokeEsp.ntp_floor <= time (RtcBtnSmokeEsp.clock w1) ->
        RtcBtnSmokeEsp.rtc w' = time (RtcBtnSmokeEsp.clock w1)
        /\ last (RtcBtnSmokeEsp.serial w') EmptyString = RtcBtnSmokeEsp.msg_updated)
    /\ (time (RtcBtnSmokeEsp.clock w1) < RtcBtnSmokeEsp.ntp_floor ->
        RtcBtnSmokeEsp.rtc w' = RtcBtnSmokeEsp.rtc w
        /\ last (RtcBtnSmokeEsp.serial w') EmptyString = RtcBtnSmokeEsp.msg_failed)).
  { unfold RtcBtnSmokeEsp.ntp_sync. fold w0.
    change (RtcBtnSmokeEsp.millis w0) with (to_ulong (RtcBtnSmokeEsp.clock w)).
    change (RtcBtnSmokeEsp.clock w0) with (RtcBtnSmokeEsp.clock w) in Hrun |- *.
    rewrite Hrun.
    destruct (RtcBtnSmokeEsp.ntp_floor <=? time (RtcBtnSmokeEsp.clock w1))
      eqn:Hnow; eexists; (split; [reflexivity|]); (split; [reflexivity|]).
    - apply Z.leb_le in Hnow. split; [|lia]. intros _.
      unfold RtcBtnSmokeEsp.print, RtcBtnSmokeEsp.rtc_adjust.
      cbn [RtcBtnSmokeEsp.rtc RtcBtnSmokeEsp.serial]. split.
      + apply to_ulong_small. apply Htime.
      + apply last_app_singleton.
    - apply Z.leb_gt in Hnow. split; [lia|]. intros _.
      unfold RtcBtnSmokeEsp.print.
      cbn [RtcBtnSmokeEsp.rtc RtcBtnSmokeEsp.serial]. split.
      + exact Hrtc.
      + apply last_app_singleton. }
  destruct Hsync as (w' & Hsync & Hclock' & Hok & Hfail).
  exists w', k. rewrite Hclock', Hclock.
  split; [exact Hsync|].
  split; [lia|]. split; [reflexivity|].
  split; [unfold RtcBtnSmokeEsp.ntp_timeout; lia|].
  split; [exact Hbefore|].
  rewrite Hclock in Hok, Hfail, Hlast.
  split; [|split].
  - intros (j & Hj & Hplausible).
    destruct (Z_lt_le_dec (time (RtcBtnSmokeEsp.clock w + 500 * k))
                RtcBtnSmokeEsp.ntp_floor) as [Hlow|Hhigh].
    + exfalso. specialize (Hlast Hlow). subst k.
      destruct (Z.eq_dec j 20) as [->|Hne]; [lia|].
      specialize (Hbefore j ltac:(lia)). lia.
    + split; [exact Hhigh | apply Hok; exact Hhigh].
  - intros Hnone.
    assert (Hlow : time (RtcBtnSmokeEsp.clock w + 500 * k)
                   < RtcBtnSmokeEsp.ntp_floor) by (apply Hnone; lia).
    split; [apply Hlast; exact Hlow | apply Hfail; exact Hlow].
  - intros time2 w2 ticks _. apply rtc_loop_counts. reflexivity.
Qed.

Lemma ntp_reconciliation_witness :
  ntp_reconciled sntp_after_3s 20 sample_world
  /\ ntp_reconciled sntp_never 20 sample_world.
Proof.
  split; apply ntp_reconciliation; try apply le_n;
    intros t; unfold is_ulong, ulong_modulus, sntp_after_3s, sntp_never;
    try destruct (t <? 33000); lia.
Defined.

Example ntp_sync_success :
  RtcBtnSmokeEsp.ntp_sync sntp_after_3s 20 sample_world
  = Some {| RtcBtnSmokeEsp.clock := 33000;
            RtcBtnSmokeEsp.rtc := 1700000000;
            RtcBtnSmokeEsp.serial :=
              [RtcBtnSmokeEsp.msg_syncing; "."; "."; "."; "."; "."; ".";
               EmptyString; "NTP epoch (UTC): "; "1700000000";
               RtcBtnSmokeEsp.msg_updated]%string |}.
Proof. vm_compute. reflexivity. Qed.

Example ntp_sync_timeout :
  option_map (fun w' => (RtcBtnSmokeEsp.clock w', RtcBtnSmokeEsp.rtc w',
                         last (RtcBtnSmokeEsp.serial w') EmptyString))
    (RtcBtnSmokeEsp.ntp_sync sntp_never 20 sample_world)
  = Some (40000, 1500000000, RtcBtnSmokeEsp.msg_failed).
Proof. vm_compute. reflexivity. Qed.

(** ** Keys of the stored records *)

Lemma String_of_ulong_inj (a b : Z) :
  0 <= a -> 0 <= b -> String_of_ulong a = String_of_ulong b -> a = b.
Proof.
  intros Ha Hb H. unfold String_of_ulong in H.
  assert (Hnil : forall n : N, N.to_uint n <> Decimal.Nil).
  { intros [|p]; [discriminate | apply DecimalPos.Unsigned.to_uint_nonnil]. }
  apply (f_equal NilZero.uint_of_string) in H.
  rewrite !NilZero.usu in H by apply Hnil.
  injection H as H. apply (f_equal N.of_uint) in H.
  rewrite !DecimalN.Unsigned.of_to in H. lia.
Qed.

Lemma upload_times_ticks {I : Type} (f : I -> Z) (ticks : list I) :
  forall outs : list (list event),
    upload_times (map f ticks) outs = map f (upload_ticks ticks outs).
Proof.
  unfold upload_times, upload_ticks.
  induction ticks as [|i rest IH]; intros [|o outs]; try reflexivity.
  cbn [map combine flat_map fst snd]. rewrite map_app, map_map, IH. reflexivity.
Qed.

Lemma upload_ticks_Forall {I : Type} (P : I -> Prop) (ticks : list I) :
  forall outs : list (list event),
    Forall P ticks -> Forall P (upload_ticks ticks outs).
Proof.
  unfold upload_ticks.
  induction ticks as [|i rest IH]; intros [|o outs] Hall; try constructor.
  inversion Hall as [|? ? Hi Hrest]; subst.
  cbn [combine flat_map fst snd]. apply Forall_app. split.
  - clear -Hi. induction o; constructor; assumption.
  - apply IH. exact Hrest.
Qed.

(** What does hold for the keys of the GPS logger: as long as [millis()]
    has not wrapped and every iteration reads its key less than one
    interval after the reading that opened the gate, the keys of the uploads
    strictly increase, and so do not repeat. *)
Lemma gps_keys_increase (s : GpsEsp.globals) (ticks : list GpsEsp.iteration) :
  is_ulong (GpsEsp.lastSendTime s) ->
  Sorted Z.le (GpsEsp.lastSendTime s :: map GpsEsp.millis_gate ticks) ->
  Forall is_ulong (map GpsEsp.millis_gate ticks) ->
  Forall (fun it => GpsEsp.millis_gate it <= GpsEsp.millis_key it
                    < GpsEsp.millis_gate it + GpsEsp.sendInterval) ticks ->
  ForallOrdPairs
    (fun a b => a < b /\ String_of_ulong a <> String_of_ulong b)
    (upload_times (map GpsEsp.millis_key ticks) (run GpsEsp.loop s ticks)).
Proof.
  intros Hs Hsorted Hrange Hkeys.
  destruct (schedules_never_twice _ _ _ _ gps_loop_schedules
              s ticks Hs Hsorted Hrange) as [Hlate Hapart].
  rewrite upload_times_ticks in Hlate, Hapart |- *.
  pose proof (upload_ticks_Forall _ ticks (run GpsEsp.loop s ticks) Hkeys) as Hk.
  unfold apart in Hapart.
  induction (upload_ticks ticks (run GpsEsp.loop s ticks)) as [|u us IH];
    [constructor|].
  cbn [map] in *.
  inversion Hapart as [|? ? Hu Hus]; subst.
  inversion Hk as [|? ? Hku Hkus]; subst.
  inversion Hlate as [|? ? Hlu Hlus]; subst.
  constructor; [|apply IH; assumption].
  clear IH Hus Hlus Hapart Hk Hlate.
  induction us as [|v vs IHv]; [constructor|].
  cbn [map] in *.
  inversion Hu as [|? ? Hv Hvs]; subst.
  inversion Hkus as [|? ? Hkv Hkvs]; subst.
  constructor; [|apply IHv; assumption].
  assert (Hlt : GpsEsp.millis_key u < GpsEsp.millis_key v) by lia.
  split; [exact Hlt|].
  intros Heq. apply String_of_ulong_inj in Heq; unfold is_ulong in *; lia.
Qed.

(** C8, on the code: after the 32-bit [millis()] counter has wrapped, the
    GPS logger sends an upload to the path of an earlier one; the sensor
    logger does so whenever the RTC reads the same second twice. *)
Theorem upload_keys_collide :
  map (map event_path) (run GpsEsp.loop GpsEsp.boot wrapped_gps_ticks)
  = [ ["/UsersData/u1/gpsLogs/100000"];
      ["/UsersData/u1/gpsLogs/200000"];
      [];
      [];
      ["/UsersData/u1/gpsLogs/100000"] ]%string
  /\ map (map event_path) (run RtcBtnSmokeEsp.loop rtc_boot stopped_rtc_ticks)
     = [ ["/UsersData/u1/readings/1700000000"];
         ["/UsersData/u1/readings/1700000000"] ]%string.
Proof. split; vm_compute; reflexivity. Qed.

(** * Further properties *)

(** ** Calendar to epoch, beyond the test vectors *)

Lemma days_from_civil_day (y m d : Z) :
  days_from_civil y m d = days_from_civil y m 1 + (d - 1).
Proof. unfold days_from_civil. cbv zeta. lia. Qed.

Lemma calendar_agrees_table : forallb year_agrees (Z_range 1970 136) = true.
Proof. vm_compute. reflexivity. Qed.

Lemma calendar_ordered_table : forallb year_ordered (Z_range 1970 136) = true.
Proof. vm_compute. reflexivity. Qed.

Lemma gpsToEpoch_midnight_reference (y mo d : Z) :
  1970 <= y <= 2105 -> 1 <= mo <= 12 -> 1 <= d <= 31 ->
  GpsEsp.gpsToEpoch y mo d 0 0 0 = Some (days_from_civil y mo d * 86400)
  /\ 0 <= days_from_civil y mo d
  /\ days_from_civil y mo d * 86400 + 86399 < ulong_modulus.
Proof.
  intros Hy Hmo Hd.
  pose proof calendar_agrees_table as T.
  rewrite forallb_forall in T.
  specialize (T y (In_Z_range 1970 136 y ltac:(lia))).
  unfold year_agrees in T. rewrite gpsToEpoch_by_stage.
  destruct (days_before_year y) as [days|]; [|discriminate]. cbn [bind].
  rewrite forallb_forall in T.
  specialize (T mo (In_Z_range 1 12 mo ltac:(lia))).
  unfold month_agrees in T.
  destruct (days_before_month _ days mo) as [days'|]; [|discriminate].
  cbn [bind].
  apply andb_true_iff in T. destruct T as [T T2].
  apply andb_true_iff in T. destruct T as [T0 T1].
  apply Z.eqb_eq in T0. apply Z.leb_le in T1. apply Z.ltb_lt in T2.
  rewrite (days_from_civil_day y mo d), <- T0.
  split; [|unfold ulong_modulus in *; lia].
  apply midnight_of_day_exact; assumption.
Qed.

Lemma gpsToEpoch_closed_form (y mo d h mi s : Z) :
  1970 <= y <= 2105 -> 1 <= mo <= 12 -> 1 <= d <= 31 ->
  tod_in_range h mi s ->
  GpsEsp.gpsToEpoch y mo d h mi s
  = Some (days_from_civil y mo d * 86400 + h * 3600 + mi * 60 + s).
Proof.
  intros Hy Hmo Hd Ht.
  destruct (gpsToEpoch_midnight_reference y mo d Hy Hmo Hd) as (E & H0 & Hfit).
  rewrite gpsToEpoch_split, E. f_equal.
  unfold tod_in_range in Ht. unfold ulong_modulus in Hfit.
  rewrite to_ulong_small by (unfold ulong_modulus; lia). lia.
Qed.

(** X1: on every date of the years 1970 to 2105 (month 1 to 12, day 1 to
    31) and every time of day, [gpsToEpoch] is defined and equals the
    reference: 86400 times the days since 1970-01-01, plus the seconds of
    the day. *)
Theorem gpsToEpoch_reference (y mo d h mi s : Z) :
  1970 <= y <= 2105 -> 1 <= mo <= 12 -> 1 <= d <= 31 ->
  tod_in_range h mi s ->
  GpsEsp.gpsToEpoch y mo d h mi s
  = Some (days_from_civil y mo d * 86400 + h * 3600 + mi * 60 + s).
Proof. exact (gpsToEpoch_closed_form y mo d h mi s). Qed.

Lemma gpsToEpoch_reference_witness :
  GpsEsp.gpsToEpoch 2099 12 31 23 59 59
  = Some (days_from_civil 2099 12 31 * 86400 + 23 * 3600 + 59 * 60 + 59).
Proof.
  apply gpsToEpoch_reference; unfold tod_in_range; lia.
Defined.

(** *** Order *)

Lemma year_ordered_facts (y : Z) :
  1970 <= y <= 2105 ->
  days_from_civil y 1 1 < days_from_civil (y + 1) 1 1
  /\ forall m, 1 <= m <= 12 ->
       1 <= days_in_month y m <= 31
       /\ days_from_civil y 1 1 <= days_from_civil y m 1
       /\ days_from_civil y m 1 + days_in_month y m
          <= days_from_civil (y + 1) 1 1
       /\ forall m2, m < m2 <= 12 ->
            days_from_civil y m 1 + days_in_month y m
            <= days_from_civil y m2 1.
Proof.
  intros Hy.
  pose proof calendar_ordered_table as T.
  rewrite forallb_forall in T.
  specialize (T y (In_Z_range 1970 136 y ltac:(lia))).
  unfold year_ordered in T.
  apply andb_true_iff in T. destruct T as [Ty Tm].
  split; [apply Z.ltb_lt; exact Ty|].
  intros m Hm. rewrite forallb_forall in Tm.
  specialize (Tm m (In_Z_range 1 12 m ltac:(lia))).
  unfold month_ordered in Tm.
  repeat (apply andb_true_iff in Tm; destruct Tm as [Tm ?]).
  repeat match goal with
         | H : (_ <=? _) = true |- _ => apply Z.leb_le in H
         end.
  repeat split; try assumption.
  intros m2 Hm2.
  match goal with
  | H : forallb _ _ = true |- _ =>
      rewrite forallb_forall in H;
      specialize (H m2 (In_Z_range 1 12 m2 ltac:(lia)))
  end.
  replace (m <? m2) with true in * by (symmetry; apply Z.ltb_lt; lia).
  apply Z.leb_le. assumption.
Qed.

Lemma year_starts_ordered (n : nat) :
  forall y : Z,
    1970 <= y -> y + Z.of_nat n <= 2106 ->
    days_from_civil y 1 1 <= days_from_civil (y + Z.of_nat n) 1 1.
Proof.
  induction n as [|n IH]; intros y Hy Hn.
  - replace (y + Z.of_nat 0) with y by lia. lia.
  - replace (y + Z.of_nat (S n)) with ((y + Z.of_nat n) + 1) by lia.
    specialize (IH y Hy ltac:(lia)).
    destruct (year_ordered_facts (y + Z.of_nat n) ltac:(lia)) as [Hlt _].
    lia.
Qed.

(** The reference day count is strictly increasing over the valid dates. *)
Lemma days_from_civil_ordered (y1 m1 d1 y2 m2 d2 : Z) :
  1970 <= y1 <= 2105 -> 1 <= m1 <= 12 -> 1 <= d1 <= days_in_month y1 m1 ->
  1970 <= y2 <= 2105 -> 1 <= m2 <= 12 -> 1 <= d2 <= days_in_month y2 m2 ->
  y1 < y2 \/ (y1 = y2 /\ (m1 < m2 \/ (m1 = m2 /\ d1 < d2))) ->
  days_from_civil y1 m1 d1 < days_from_civil y2 m2 d2.
Proof.
  intros Hy1 Hm1 Hd1 Hy2 Hm2 Hd2 Hlt.
  rewrite (days_from_civil_day y1 m1 d1), (days_from_civil_day y2 m2 d2).
  destruct (year_ordered_facts y1 Hy1) as [_ F1].
  destruct (F1 m1 Hm1) as (_ & _ & Hend1 & Hnext1).
  destruct (year_ordered_facts y2 Hy2) as [_ F2].
  destruct (F2 m2 Hm2) as (_ & Hstart2 & _ & _).
  destruct Hlt as [Hy | [-> [Hm | [-> Hd]]]].
  - pose proof (year_starts_ordered (Z.to_nat (y2 - (y1 + 1))) (y1 + 1)
                  ltac:(lia) ltac:(lia)) as Hys.
    replace (y1 + 1 + Z.of_nat (Z.to_nat (y2 - (y1 + 1)))) with y2 in Hys
      by lia.
    lia.
  - specialize (Hnext1 m2 ltac:(lia)). lia.
  - lia.
Qed.

(** X2: over the valid timestamps of 1970 to 2105 the conversion preserves
    order: the lexicographically later (year, month, day, hour, minute,
    second) converts to the strictly larger epoch.  In particular it is
    injective there. *)
Theorem gpsToEpoch_order_preserving (t1 t2 : Z * Z * Z * Z * Z * Z) :
  valid_timestamp t1 -> valid_timestamp t2 -> timestamp_lt t1 t2 ->
  exists e1 e2,
    gpsToEpoch_at t1 = Some e1 /\ gpsToEpoch_at t2 = Some e2 /\ e1 < e2.
Proof.
  destruct t1 as [[[[[y1 mo1] d1] h1] mi1] s1].
  destruct t2 as [[[[[y2 mo2] d2] h2] mi2] s2].
  intros (Hy1 & Hm1 & Hd1 & Ht1) (Hy2 & Hm2 & Hd2 & Ht2) Hlt.
  destruct (year_ordered_facts y1 Hy1) as [_ F1].
  destruct (F1 mo1 Hm1) as (Hdim1 & _).
  destruct (year_ordered_facts y2 Hy2) as [_ F2].
  destruct (F2 mo2 Hm2) as (Hdim2 & _).
  cbn [gpsToEpoch_at].
  rewrite (gpsToEpoch_closed_form y1 mo1 d1 h1 mi1 s1) by (assumption || lia).
  rewrite (gpsToEpoch_closed_form y2 mo2 d2 h2 mi2 s2) by (assumption || lia).
  eexists; eexists; repeat split.
  assert (Hdate :
    days_from_civil y1 mo1 d1 < days_from_civil y2 mo2 d2
    \/ (days_from_civil y1 mo1 d1 = days_from_civil y2 mo2 d2
        /\ tod_lt (h1, mi1, s1) (h2, mi2, s2))).
  { cbn [timestamp_lt] in Hlt.
    destruct Hlt as [Hy | [-> [Hm | [-> [Hd | [-> Htod]]]]]].
    - left. apply days_from_civil_ordered; try assumption. left. exact Hy.
    - left. apply days_from_civil_ordered; try assumption. right. auto.
    - left. apply days_from_civil_ordered; try assumption. right. auto.
    - right. split; [reflexivity | exact Htod]. }
  destruct Hdate as [Hdate | [Heq Htod]].
  - unfold tod_in_range in Ht1, Ht2. lia.
  - rewrite Heq.
    destruct (tod_seconds_lt _ _ _ _ _ _ Ht1 Ht2 Htod) as [Hsec _]. lia.
Qed.

Lemma gpsToEpoch_order_preserving_witness :
  exists e1 e2,
    gpsToEpoch_at (2023, 12, 31, 23, 59, 59) = Some e1
    /\ gpsToEpoch_at (2024, 2, 29, 0, 0, 0) = Some e2
    /\ e1 < e2.
Proof.
  apply gpsToEpoch_order_preserving;
    unfold valid_timestamp, timestamp_lt, tod_in_range;
    change (days_in_month 2023 12) with 31;
    change (days_in_month 2024 2) with 29; lia.
Defined.

(** X3: a GPS object with valid flags that holds a valid timestamp of 1970
    to 2105 other than 1970-01-01T00:00:00 never yields the sentinel:
    [getGPSEpochUTC] returns a positive epoch. *)
Theorem sentinel_only_at_epoch_start (g : GpsEsp.TinyGPSPlus) :
  GpsEsp.date_isValid g = true ->
  GpsEsp.time_isValid g = true ->
  valid_timestamp (timestamp_of g) ->
  timestamp_of g <> (1970, 1, 1, 0, 0, 0) ->
  exists e, GpsEsp.getGPSEpochUTC g = Some e /\ 0 < e.
Proof.
  intros Hd Ht Hvalid Hne.
  unfold GpsEsp.getGPSEpochUTC. rewrite Hd, Ht. cbn [andb].
  unfold timestamp_of in Hvalid, Hne.
  destruct Hvalid as (Hy & Hmo & Hday & Htod).
  destruct (year_ordered_facts _ Hy) as [_ F].
  destruct (F _ Hmo) as (Hdim & _).
  rewrite gpsToEpoch_closed_form by (assumption || lia).
  eexists; split; [reflexivity|].
  destruct (gpsToEpoch_midnight_reference
              (GpsEsp.date_year g) (GpsEsp.date_month g) (GpsEsp.date_day g)
              Hy Hmo ltac:(lia)) as (_ & H0 & _).
  unfold tod_in_range in Htod.
  assert (Hcase :
    (GpsEsp.date_year g = 1970 /\ GpsEsp.date_month g = 1
     /\ GpsEsp.date_day g = 1)
    \/ (1970 < GpsEsp.date_year g
        \/ (1970 = GpsEsp.date_year g
            /\ (1 < GpsEsp.date_month g
                \/ (1 = GpsEsp.date_month g /\ 1 < GpsEsp.date_day g)))))
    by lia.
  destruct Hcase as [(Ey & Em & Ed) | Hlater].
  - (* the first day: the time of day is not midnight *)
    rewrite Ey, Em, Ed in *.
    change (days_from_civil 1970 1 1) with 0.
    assert (~ (GpsEsp.time_hour g = 0 /\ GpsEsp.time_minute g = 0
               /\ GpsEsp.time_second g = 0)).
    { intros (Eh & Emi & Es). apply Hne. rewrite Eh, Emi, Es. reflexivity. }
    lia.
  - assert (Hpos : days_from_civil 1970 1 1
                   < days_from_civil (GpsEsp.date_year g)
                       (GpsEsp.date_month g) (GpsEsp.date_day g)).
    { apply days_from_civil_ordered; try assumption; try lia.
      change (days_in_month 1970 1) with 31. lia. }
    change (days_from_civil 1970 1 1) with 0 in Hpos. lia.
Qed.

Lemma sentinel_only_at_epoch_start_witness :
  exists e, GpsEsp.getGPSEpochUTC sample_fix = Some e /\ 0 < e.
Proof.
  apply sentinel_only_at_epoch_start; try reflexivity.
  - unfold valid_timestamp, timestamp_of, tod_in_range. cbn.
    change (days_in_month 2024 3) with 31. lia.
  - discriminate.
Defined.

(** *** Inputs outside the calendar *)

Lemma for_loop_snoc {A : Type} (body : Z -> A -> ub A) (n : nat) :
  forall (i : Z) (acc : A),
    for_loop (S n) i body acc
    = bind (for_loop n i body acc) (body (i + Z.of_nat n)).
Proof.
  induction n as [|n IH]; intros i acc.
  - cbn [for_loop bind]. replace (i + Z.of_nat 0) with i by lia.
    destruct (body i acc); reflexivity.
  - change (for_loop (S (S n)) i body acc)
      with (bind (body i acc) (for_loop (S n) (i + 1) body)).
    change (for_loop (S n) i body acc)
      with (bind (body i acc) (for_loop n (i + 1) body)).
    destruct (body i acc) as [acc'|]; [|reflexivity]. cbn [bind].
    rewrite IH. replace (i + 1 + Z.of_nat n) with (i + Z.of_nat (S n)) by lia.
    reflexivity.
Qed.

Lemma for_loop_app {A : Type} (body : Z -> A -> ub A) (a b : nat) :
  forall (i : Z) (acc : A),
    for_loop (a + b) i body acc
    = bind (for_loop a i body acc) (for_loop b (i + Z.of_nat a) body).
Proof.
  induction a as [|a IH]; intros i acc.
  - cbn [for_loop bind Nat.add]. replace (i + Z.of_nat 0) with i by lia.
    reflexivity.
  - cbn [for_loop Nat.add].
    destruct (body i acc) as [acc'|]; [|reflexivity]. cbn [bind].
    rewrite IH. replace (i + 1 + Z.of_nat a) with (i + Z.of_nat (S a)) by lia.
    reflexivity.
Qed.

Lemma gpsToEpoch_stages (y mo d h mi s : Z) :
  GpsEsp.gpsToEpoch y mo d h mi s
  = (days <- days_before_year y ;;
     days <- days_before_month (GpsEsp.isLeapYear y) days mo ;;
     days <- add_day days d ;;
     Some (epoch_of_days days h mi s)).
Proof. reflexivity. Qed.

Lemma days_before_year_early (y : Z) : y <= 1970 -> days_before_year y = Some 0.
Proof.
  intros Hy. unfold days_before_year, for_range.
  replace (Z.to_nat (y - 1970)) with 0%nat by lia. reflexivity.
Qed.

Lemma days_before_year_defined (y : Z) : exists days, days_before_year y = Some days.
Proof.
  unfold days_before_year, for_range.
  generalize (Z.to_nat (y - 1970)) as n. generalize 1970 as i. generalize 0 as acc.
  intros acc i n. revert i acc.
  induction n as [|n IH]; intros i acc; cbn [for_loop bind].
  - exists acc. reflexivity.
  - apply IH.
Qed.

(** X4: the years before 1970 are not rejected and not distinguished: the
    year loop does not run for them, so two years up to 1970 with the same
    leap status convert every month, day and time to the same epoch.  Every
    date of 1969 converts like the same date of 1970. *)
Theorem gpsToEpoch_before_1970 (y y' mo d h mi s : Z) :
  y <= 1970 -> y' <= 1970 ->
  GpsEsp.isLeapYear y = GpsEsp.isLeapYear y' ->
  GpsEsp.gpsToEpoch y mo d h mi s = GpsEsp.gpsToEpoch y' mo d h mi s.
Proof.
  intros Hy Hy' Hleap.
  rewrite !gpsToEpoch_stages, Hleap.
  rewrite (days_before_year_early y Hy), (days_before_year_early y' Hy').
  reflexivity.
Qed.

Lemma gpsToEpoch_before_1970_witness :
  GpsEsp.gpsToEpoch 1969 12 31 23 59 59 = GpsEsp.gpsToEpoch 1970 12 31 23 59 59.
Proof.
  apply gpsToEpoch_before_1970; solve [lia | reflexivity].
Defined.

Lemma month_table_length (leap : bool) :
  List.length (if leap then array_set GpsEsp.daysInMonth_init 2 29
               else GpsEsp.daysInMonth_init) = 13%nat.
Proof. destruct leap; reflexivity. Qed.

Lemma month_table_get (leap : bool) (m : Z) :
  0 <= m <= 12 ->
  exists dm,
    array_get (if leap then array_set GpsEsp.daysInMonth_init 2 29
               else GpsEsp.daysInMonth_init) m = Some dm.
Proof.
  intros Hm. unfold array_get.
  replace (m <? 0) with false by (symmetry; apply Z.ltb_ge; lia).
  destruct (nth_error _ (Z.to_nat m)) as [dm|] eqn:E; [exists dm; reflexivity|].
  apply nth_error_None in E. rewrite month_table_length in E. lia.
Qed.

Lemma month_table_past (leap : bool) (m : Z) :
  13 <= m ->
  array_get (if leap then array_set GpsEsp.daysInMonth_init 2 29
             else GpsEsp.daysInMonth_init) m = None.
Proof.
  intros Hm. unfold array_get.
  replace (m <? 0) with false by (symmetry; apply Z.ltb_ge; lia).
  apply nth_error_None. rewrite month_table_length. lia.
Qed.

(** The month loop stays inside the table for [n] iterations from [i]. *)
Lemma month_loop_inside (leap : bool) (n : nat) :
  forall i acc : Z,
    1 <= i -> i + Z.of_nat n <= 13 ->
    exists days,
      for_loop n i
        (fun m days =>
           d <- array_get (if leap then array_set GpsEsp.daysInMonth_init 2 29
                           else GpsEsp.daysInMonth_init) m ;;
           Some (to_ulong (days + d)))
        acc = Some days.
Proof.
  induction n as [|n IH]; intros i acc Hi Hn; cbn [for_loop].
  - exists acc. reflexivity.
  - destruct (month_table_get leap i ltac:(lia)) as [dm ->]. cbn [bind].
    apply IH; lia.
Qed.

Lemma days_before_month_defined (leap : bool) (days mo : Z) :
  mo <= 13 -> exists days', days_before_month leap days mo = Some days'.
Proof.
  intros Hmo. unfold days_before_month, for_range.
  apply month_loop_inside; lia.
Qed.

Lemma days_before_month_undefined (leap : bool) (days mo : Z) :
  13 < mo -> days_before_month leap days mo = None.
Proof.
  intros Hmo. unfold days_before_month, for_range.
  replace (Z.to_nat (mo - 1)) with (12 + S (Z.to_nat (mo - 14)))%nat by lia.
  rewrite for_loop_app.
  destruct (month_loop_inside leap 12 1 days ltac:(lia) ltac:(lia)) as [d12 ->].
  cbn [bind for_loop]. change (1 + Z.of_nat 12) with 13.
  rewrite (month_table_past leap 13) by lia. reflexivity.
Qed.

(** X5: the conversion is undefined exactly when the month loop leaves the
    13-entry table (month above 13) or [day - 1] overflows; months 0 and
    below and month 13 are accepted, as is any hour, minute and second. *)
Theorem gpsToEpoch_undefined_iff (y mo d h mi s : Z) :
  GpsEsp.gpsToEpoch y mo d h mi s = None <-> 13 < mo \/ d - 1 < long_min.
Proof.
  rewrite gpsToEpoch_stages.
  destruct (days_before_year_defined y) as [days ->]. cbn [bind].
  destruct (Z_lt_le_dec 13 mo) as [Hbig | Hok].
  - rewrite days_before_month_undefined by exact Hbig. cbn [bind].
    split; [left; exact Hbig | reflexivity].
  - destruct (days_before_month_defined (GpsEsp.isLeapYear y) days mo Hok)
      as [days' ->].
    cbn [bind]. unfold add_day.
    destruct (d - 1 <? long_min) eqn:Hd; cbn [bind].
    + apply Z.ltb_lt in Hd. split; [right; exact Hd | reflexivity].
    + apply Z.ltb_ge in Hd. split; [discriminate | lia].
Qed.

Lemma to_ulong_add_l (a b : Z) : to_ulong (to_ulong a + b) = to_ulong (a + b).
Proof. unfold to_ulong. apply Z.add_mod_idemp_l. discriminate. Qed.

(** The month loop adds the entries of the table, modulo 2^32. *)
Lemma month_loop_sum (y : Z) (n : nat) :
  forall i acc : Z,
    1 <= i -> i + Z.of_nat (S n) <= 13 ->
    for_loop (S n) i
      (fun m days =>
         d <- array_get (if GpsEsp.isLeapYear y
                         then array_set GpsEsp.daysInMonth_init 2 29
                         else GpsEsp.daysInMonth_init) m ;;
         Some (to_ulong (days + d)))
      acc
    = Some (to_ulong (acc + month_days_from y (S n) i)).
Proof.
  induction n as [|n IH]; intros i acc Hi Hn.
  - cbn [for_loop month_days_from]. unfold days_in_month.
    destruct (month_table_get (GpsEsp.isLeapYear y) i ltac:(lia)) as [dm ->].
    cbn [bind]. do 2 f_equal. lia.
  - change (for_loop (S (S n)) i ?body acc)
      with (bind (body i acc) (for_loop (S n) (i + 1) body)).
    cbn [month_days_from]. unfold days_in_month at 1.
    destruct (month_table_get (GpsEsp.isLeapYear y) i ltac:(lia)) as [dm ->].
    cbn [bind]. rewrite IH by lia. f_equal.
    rewrite to_ulong_add_l. f_equal. cbn [month_days_from]. lia.
Qed.

Lemma year_days_sum (y : Z) :
  month_days_from y 12 1 = if GpsEsp.isLeapYear y then 366 else 365.
Proof.
  cbn [month_days_from]. unfold days_in_month.
  destruct (GpsEsp.isLeapYear y); reflexivity.
Qed.

Lemma days_before_year_succ (y : Z) :
  1970 <= y ->
  days_before_year (y + 1)
  = (days <- days_before_year y ;;
     Some (to_ulong (days + (if GpsEsp.isLeapYear y then 366 else 365)))).
Proof.
  intros Hy. unfold days_before_year, for_range.
  replace (Z.to_nat (y + 1 - 1970)) with (S (Z.to_nat (y - 1970))) by lia.
  rewrite for_loop_snoc.
  replace (1970 + Z.of_nat (Z.to_nat (y - 1970))) with y by lia.
  reflexivity.
Qed.

(** X6: month 13 is accepted and is January of the next year: from 1970
    on, [gpsToEpoch(y + 1, 1, d, ...)] and [gpsToEpoch(y, 13, d, ...)] are
    the same, the twelve table entries adding up to the 365 or 366 days the
    year loop adds. *)
Theorem gpsToEpoch_year_boundary (y d h mi s : Z) :
  1970 <= y ->
  GpsEsp.gpsToEpoch (y + 1) 1 d h mi s = GpsEsp.gpsToEpoch y 13 d h mi s.
Proof.
  intros Hy. rewrite !gpsToEpoch_stages.
  rewrite (days_before_year_succ y Hy).
  destruct (days_before_year_defined y) as [days ->]. cbn [bind].
  unfold days_before_month, for_range.
  change (Z.to_nat (1 - 1)) with 0%nat. change (Z.to_nat (13 - 1)) with 12%nat.
  rewrite (month_loop_sum y 11 1 days) by lia.
  rewrite year_days_sum. reflexivity.
Qed.

Lemma gpsToEpoch_year_boundary_witness :
  GpsEsp.gpsToEpoch (2023 + 1) 1 1 0 0 0 = GpsEsp.gpsToEpoch 2023 13 1 0 0 0.
Proof. apply gpsToEpoch_year_boundary. lia. Defined.

Lemma days_in_month_range (y mo : Z) :
  1 <= mo <= 12 -> 28 <= days_in_month y mo <= 31.
Proof.
  intros Hmo. unfold days_in_month.
  assert (Hcases : mo = 1 \/ mo = 2 \/ mo = 3 \/ mo = 4 \/ mo = 5 \/ mo = 6
                   \/ mo = 7 \/ mo = 8 \/ mo = 9 \/ mo = 10 \/ mo = 11
                   \/ mo = 12) by lia.
  destruct (GpsEsp.isLeapYear y);
    repeat (destruct Hcases as [-> | Hcases];
            [vm_compute; split; discriminate|]);
    subst mo; vm_compute; split; discriminate.
Qed.

(** X7: the day is not checked against the length of the month; days past
    the end run into the next month.  For a month 1 to 12, day [d] of the
    next month and day [d] plus the length of this month convert alike. *)
Theorem gpsToEpoch_day_carries (y mo d h mi s : Z) :
  1 <= mo <= 12 -> long_min <= d - 1 ->
  GpsEsp.gpsToEpoch y (mo + 1) d h mi s
  = GpsEsp.gpsToEpoch y mo (d + days_in_month y mo) h mi s.
Proof.
  intros Hmo Hd. rewrite !gpsToEpoch_stages.
  destruct (days_before_year_defined y) as [days ->]. cbn [bind].
  pose proof (days_in_month_range y mo Hmo) as Hdim.
  assert (Hnext :
    days_before_month (GpsEsp.isLeapYear y) days (mo + 1)
    = (days' <- days_before_month (GpsEsp.isLeapYear y) days mo ;;
       Some (to_ulong (days' + days_in_month y mo)))).
  { unfold days_before_month, for_range.
    replace (Z.to_nat (mo + 1 - 1)) with (S (Z.to_nat (mo - 1))) by lia.
    rewrite for_loop_snoc.
    replace (1 + Z.of_nat (Z.to_nat (mo - 1))) with mo by lia.
    destruct (for_loop _ 1 _ days) as [days'|]; [|reflexivity]. cbn [bind].
    unfold days_in_month.
    destruct (month_table_get (GpsEsp.isLeapYear y) mo ltac:(lia)) as [dm ->].
    reflexivity. }
  rewrite Hnext.
  destruct (days_before_month_defined (GpsEsp.isLeapYear y) days mo ltac:(lia))
    as [days' ->].
  cbn [bind]. unfold add_day.
  replace (d - 1 <? long_min) with false by (symmetry; apply Z.ltb_ge; lia).
  replace (d + days_in_month y mo - 1 <? long_min) with false
    by (symmetry; apply Z.ltb_ge; lia).
  cbn [bind]. rewrite to_ulong_add_l. do 3 f_equal. lia.
Qed.

Lemma gpsToEpoch_day_carries_witness :
  GpsEsp.gpsToEpoch 2023 (2 + 1) 1 12 0 0
  = GpsEsp.gpsToEpoch 2023 2 (1 + days_in_month 2023 2) 12 0 0.
Proof. apply gpsToEpoch_day_carries; unfold long_min; lia. Defined.

(** X8: [isLeapYear] is the Gregorian rule on every [int], negative years
    included (the remainder of C++ is zero exactly at the multiples). *)
Theorem isLeapYear_gregorian (y : Z) :
  GpsEsp.isLeapYear y = true
  <-> ((4 | y) /\ ~ (100 | y)) \/ (400 | y).
Proof.
  unfold GpsEsp.isLeapYear.
  rewrite orb_true_iff, andb_true_iff, negb_true_iff, !Z.eqb_eq, Z.eqb_neq.
  rewrite !Z.rem_divide by discriminate. reflexivity.
Qed.

(** ** The schedule, beyond the claims *)

Lemma gps_loop_sends_iff (s : GpsEsp.globals) (i : GpsEsp.iteration) :
  gps_may_send i ->
  (fst (GpsEsp.loop s i) <> []
   <-> GpsEsp.sendInterval
       <= to_ulong (GpsEsp.millis_gate i - GpsEsp.lastSendTime s)).
Proof.
  intros Hmay. split.
  - intros Hsent. pose proof (gps_loop_schedules s i) as H.
    destruct (GpsEsp.loop s i) as [evs o]. cbn [fst] in Hsent.
    destruct evs as [|e [|e' evs]]; [contradiction | apply H | contradiction].
  - intros Hlate. destruct (gps_loop_sends s i Hmay Hlate) as [e ->].
    discriminate.
Qed.

Lemma rtc_loop_sends_iff (s : RtcBtnSmokeEsp.machine)
  (i : RtcBtnSmokeEsp.iteration) :
  rtc_may_send i ->
  (fst (RtcBtnSmokeEsp.loop s i) <> []
   <-> RtcBtnSmokeEsp.sendInterval
       <= to_ulong (RtcBtnSmokeEsp.millis_now i
                    - RtcBtnSmokeEsp.lastSendTime s)).
Proof.
  intros Hmay. split.
  - intros Hsent. pose proof (rtc_loop_schedules s i) as H.
    destruct (RtcBtnSmokeEsp.loop s i) as [evs o]. cbn [fst] in Hsent.
    destruct evs as [|e [|e' evs]]; [contradiction | apply H | contradiction].
  - intros Hlate. destruct (rtc_loop_sends s i Hmay Hlate) as [e ->].
    discriminate.
Qed.

(** X9: the interval test survives the wrap of [millis()].  When the last
    send was at uptime [t0] and the iteration runs [d] milliseconds later,
    [d] below 2^32, an iteration that may send does send exactly when [d]
    is at least [sendInterval], whether or not the counter wrapped in
    between.  Both sketches. *)
Theorem schedule_survives_wrap (t0 d : Z) :
  0 <= d < ulong_modulus ->
  (forall (s : GpsEsp.globals) (i : GpsEsp.iteration),
     GpsEsp.lastSendTime s = to_ulong t0 ->
     GpsEsp.millis_gate i = to_ulong (t0 + d) ->
     gps_may_send i ->
     (fst (GpsEsp.loop s i) <> [] <-> GpsEsp.sendInterval <= d))
  /\ (forall (s : RtcBtnSmokeEsp.machine) (i : RtcBtnSmokeEsp.iteration),
        RtcBtnSmokeEsp.lastSendTime s = to_ulong t0 ->
        RtcBtnSmokeEsp.millis_now i = to_ulong (t0 + d) ->
        rtc_may_send i ->
        (fst (RtcBtnSmokeEsp.loop s i) <> []
         <-> RtcBtnSmokeEsp.sendInterval <= d)).
Proof.
  intros Hd.
  assert (E : to_ulong (to_ulong (t0 + d) - to_ulong t0) = d).
  { rewrite to_ulong_sub. replace (t0 + d - t0) with d by lia.
    apply to_ulong_small. exact Hd. }
  split; intros s i Hlast Hnow Hmay.
  - rewrite (gps_loop_sends_iff s i Hmay), Hlast, Hnow, E. reflexivity.
  - rewrite (rtc_loop_sends_iff s i Hmay), Hlast, Hnow, E. reflexivity.
Qed.

Lemma run_length {S I : Type} (loop : S -> I -> list event * outcome S)
  (ticks : list I) :
  forall s : S, List.length (run loop s ticks) = List.length ticks.
Proof.
  induction ticks as [|i rest IH]; intros s; [reflexivity|].
  cbn [run]. destruct (loop s i) as [evs o]. cbn [List.length]. f_equal.
  destruct o; [apply IH | |]; apply length_map.
Qed.

Lemma upload_times_length (nows : list Z) :
  forall outs : list (list event),
    List.length nows = List.length outs ->
    List.length (upload_times nows outs) = List.length (List.concat outs).
Proof.
  unfold upload_times.
  induction nows as [|t nows IH]; intros [|o outs] Hlen;
    try reflexivity; try discriminate.
  cbn [combine flat_map List.concat fst snd].
  rewrite !length_app, length_map. f_equal. apply IH.
  cbn in Hlen. lia.
Qed.

Lemma upload_times_Forall (P : Z -> Prop) (nows : list Z) :
  forall outs : list (list event),
    Forall P nows -> Forall P (upload_times nows outs).
Proof.
  unfold upload_times.
  induction nows as [|t nows IH]; intros [|o outs] Hall; try constructor.
  inversion Hall as [|? ? Ht Hrest]; subst.
  cbn [combine flat_map fst snd]. apply Forall_app. split.
  - clear -Ht. induction o; constructor; assumption.
  - apply IH. exact Hrest.
Qed.

(** Instants that are [interval] apart, the first [interval] after [lo] and
    the last not after [hi], number at most [(hi - lo) / interval]. *)
Lemma apart_count (interval hi : Z) (ts : list Z) :
  forall lo : Z,
    lo <= hi ->
    Forall (fun t => lo + interval <= t) ts ->
    apart interval ts ->
    Forall (fun t => t <= hi) ts ->
    Z.of_nat (List.length ts) * interval <= hi - lo.
Proof.
  induction ts as [|t ts IH]; intros lo Hlo Hlate Hapart Hhi.
  - cbn. lia.
  - inversion Hlate as [|? ? Ht _]; subst.
    inversion Hapart as [|? ? Hnext Hrest]; subst.
    inversion Hhi as [|? ? Hthi Hhi']; subst.
    specialize (IH t Hthi Hnext Hrest Hhi').
    cbn [List.length]. nia.
Qed.

Section RateLimit.

Context {S I : Type}.
Variable loop : S -> I -> list event * outcome S.
Variable last : S -> Z.
Variable now : I -> Z.
Variable interval : Z.
Hypothesis loop_schedules : schedules loop last now interval.

Lemma schedules_rate_limit (s : S) (ticks : list I) (hi : Z) :
  is_ulong (last s) ->
  Sorted Z.le (last s :: map now ticks) ->
  Forall is_ulong (map now ticks) ->
  Forall (fun t => t <= hi) (map now ticks) ->
  last s <= hi ->
  Z.of_nat (List.length (List.concat (run loop s ticks))) * interval
  <= hi - last s.
Proof.
  intros Hs Hsorted Hrange Hhi Hlo.
  destruct (schedules_never_twice loop last now interval loop_schedules
              s ticks Hs Hsorted Hrange) as [Hlate Hapart].
  rewrite <- (upload_times_length (map now ticks))
    by (rewrite run_length, length_map; reflexivity).
  apply apart_count; try assumption.
  apply upload_times_Forall. exact Hhi.
Qed.

End RateLimit.

(** X11: the number of uploads is bounded by the time elapsed: against
    readings of [millis()] that do not decrease and stay at or below
    [hi], the uploads of a run number at most [(hi - lastSendTime) /
    sendInterval]; from boot, at most one per full interval of uptime.
    Both sketches. *)
Theorem upload_rate_limit (hi : Z)
  (g : GpsEsp.globals) (gps_ticks : list GpsEsp.iteration)
  (m : RtcBtnSmokeEsp.machine) (rtc_ticks : list RtcBtnSmokeEsp.iteration) :
  is_ulong (GpsEsp.lastSendTime g) ->
  Sorted Z.le (GpsEsp.lastSendTime g :: map GpsEsp.millis_gate gps_ticks) ->
  Forall is_ulong (map GpsEsp.millis_gate gps_ticks) ->
  Forall (fun t => t <= hi) (map GpsEsp.millis_gate gps_ticks) ->
  GpsEsp.lastSendTime g <= hi ->
  is_ulong (RtcBtnSmokeEsp.lastSendTime m) ->
  Sorted Z.le (RtcBtnSmokeEsp.lastSendTime m
               :: map RtcBtnSmokeEsp.millis_now rtc_ticks) ->
  Forall is_ulong (map RtcBtnSmokeEsp.millis_now rtc_ticks) ->
  Forall (fun t => t <= hi) (map RtcBtnSmokeEsp.millis_now rtc_ticks) ->
  RtcBtnSmokeEsp.lastSendTime m <= hi ->
  Z.of_nat (List.length (List.concat (run GpsEsp.loop g gps_ticks)))
  * GpsEsp.sendInterval <= hi - GpsEsp.lastSendTime g
  /\ Z.of_nat (List.length (List.concat (run RtcBtnSmokeEsp.loop m rtc_ticks)))
     * RtcBtnSmokeEsp.sendInterval <= hi - RtcBtnSmokeEsp.lastSendTime m.
Proof.
  intros G1 G2 G3 G4 G5 R1 R2 R3 R4 R5. split.
  - apply (schedules_rate_limit GpsEsp.loop GpsEsp.lastSendTime
             GpsEsp.millis_gate GpsEsp.sendInterval gps_loop_schedules);
      assumption.
  - apply (schedules_rate_limit RtcBtnSmokeEsp.loop
             RtcBtnSmokeEsp.lastSendTime RtcBtnSmokeEsp.millis_now
             RtcBtnSmokeEsp.sendInterval rtc_loop_schedules);
      assumption.
Qed.

(** ** Payloads and paths, beyond the claims *)

(** X12: every upload of the sensor logger carries the three fields
    smoking, timestamp and emergency_press, in this order; the two flags
    are true exactly when their pin reads LOW; the timestamp is the RTC
    epoch, which is also the last segment of the path; and the globals then
    hold the path and the timestamp of this upload. *)
Theorem rtc_upload_payload (st : RtcBtnSmokeEsp.machine)
  (it : RtcBtnSmokeEsp.iteration) (e : event) (o : outcome RtcBtnSmokeEsp.machine) :
  RtcBtnSmokeEsp.loop st it = ([e], o) ->
  exists st',
    o = Running st'
    /\ event_json e
       = [ ("/smoking"%string,
            JBool (RtcBtnSmokeEsp.digitalRead_DO_PIN it =? 0));
           ("/timestamp"%string, JULong (RtcBtnSmokeEsp.timestampEpoch st'));
           ("/emergency_press"%string,
            JBool (RtcBtnSmokeEsp.digitalRead_EMER_PIN it =? 0)) ]
    /\ RtcBtnSmokeEsp.timestampEpoch st'
       = to_ulong (RtcBtnSmokeEsp.rtc_epoch st + RtcBtnSmokeEsp.rtc_elapsed it)
    /\ event_path e = rtc_path (RtcBtnSmokeEsp.rtc_epoch st) it
    /\ RtcBtnSmokeEsp.parentPath st' = event_path e
    /\ RtcBtnSmokeEsp.lastSendTime st' = RtcBtnSmokeEsp.millis_now it
    /\ RtcBtnSmokeEsp.rtc_epoch st' = RtcBtnSmokeEsp.rtc_epoch st.
Proof.
  unfold RtcBtnSmokeEsp.loop.
  destruct (RtcBtnSmokeEsp.app_ready it); [|discriminate].
  destruct (RtcBtnSmokeEsp.sendInterval <=? _); [|discriminate].
  intros H. injection H as <- <-.
  eexists. split; [reflexivity|]. repeat split.
Qed.

Lemma rtc_upload_payload_witness :
  exists st',
    Running st' = snd (RtcBtnSmokeEsp.loop rtc_boot (rtc_tick true 6000 6))
    /\ RtcBtnSmokeEsp.timestampEpoch st' = 1700000006
    /\ RtcBtnSmokeEsp.parentPath st'
       = "/UsersData/u1/readings/1700000006"%string.
Proof.
  destruct (rtc_upload_payload rtc_boot (rtc_tick true 6000 6)
              (Database_set "/UsersData/u1/readings/1700000006"
                 [ ("/smoking"%string, JBool false);
                   ("/timestamp"%string, JULong 1700000006);
                   ("/emergency_press"%string, JBool true) ]
                 "RTDB_Send_Data")
              (snd (RtcBtnSmokeEsp.loop rtc_boot (rtc_tick true 6000 6)))
              eq_refl)
    as (st' & Ho & _ & Hts & Hpath & Hparent & _).
  exists st'. split; [symmetry; exact Ho|]. split.
  - rewrite Hts. reflexivity.
  - rewrite Hparent. reflexivity.
Defined.

(** X20: every upload of the GPS logger carries the three fields latitude,
    longitude and timestamp, in this order; longitude is the truncated
    longitude and timestamp the computed epoch, both defined; latitude is
    always the literal "0.0000000" of line 205, never the position. *)
Theorem gps_upload_fields (st st' : GpsEsp.globals) (it : GpsEsp.iteration)
  (e : event) :
  GpsEsp.upload st it = Some (st', [e]) ->
  exists lng epoch,
    GpsEsp.truncate5 (GpsEsp.location_lng (GpsEsp.gps it)) = Some lng
    /\ GpsEsp.getGPSEpochUTC (GpsEsp.gps it) = Some epoch
    /\ event_json e = [ (GpsEsp.latPath, JText "0.0000000");
                        (GpsEsp.lngPath, JDouble lng);
                        (GpsEsp.timePath, JULong epoch) ].
Proof. exact (gps_upload_payload st st' it e). Qed.

Lemma gps_upload_fields_witness :
  exists lng epoch,
    GpsEsp.truncate5 (GpsEsp.location_lng sample_fix) = Some lng
    /\ GpsEsp.getGPSEpochUTC sample_fix = Some epoch.
Proof.
  destruct (gps_upload_fields GpsEsp.boot
              {| GpsEsp.lastSendTime := 120000;
                 GpsEsp.uid := "u1";
                 GpsEsp.databasePath := "/UsersData/u1/gpsLogs" |}
              (gps_tick true sample_fix 120000)
              (Database_set "/UsersData/u1/gpsLogs/120000"
                 [ ("/latitude"%string, JText "0.0000000");
                   ("/longitude"%string, JDouble (-77.12345)%float);
                   ("/timestamp"%string, JULong 1709251200) ]
                 "GPS_Data")
              eq_refl)
    as (lng & epoch & Hlng & Hepoch & _).
  exists lng, epoch. split; assumption.
Defined.

Lemma string_app_inv_head (p a b : string) :
  (p ++ a)%string = (p ++ b)%string -> a = b.
Proof.
  induction p as [|c p IH]; cbn; intros H; [exact H|].
  injection H as H. apply IH. exact H.
Qed.

Lemma ForallOrdPairs_impl_In {A : Type} (R Q : A -> A -> Prop) (l : list A) :
  (forall a b, In a l -> In b l -> R a b -> Q a b) ->
  ForallOrdPairs R l -> ForallOrdPairs Q l.
Proof.
  induction l as [|x l IH]; intros Himp H; [constructor|].
  inversion H as [|? ? Hx Hl]; subst. constructor.
  - rewrite Forall_forall in *. intros y Hy.
    apply Himp; [left; reflexivity | right; exact Hy | apply Hx; exact Hy].
  - apply IH; [|exact Hl].
    intros a b Ha Hb. apply Himp; right; assumption.
Qed.

Lemma ForallOrdPairs_map {A B : Type} (f : A -> B) (R : B -> B -> Prop)
  (l : list A) :
  ForallOrdPairs (fun a b => R (f a) (f b)) l <-> ForallOrdPairs R (map f l).
Proof.
  induction l as [|x l IH]; cbn [map].
  - split; constructor.
  - split; intros H; inversion H as [|? ? Hx Hl]; subst; constructor.
    + exact (proj2 (Forall_map f (R (f x)) l) Hx).
    + apply IH. exact Hl.
    + exact (proj1 (Forall_map f (R (f x)) l) Hx).
    + apply IH. exact Hl.
Qed.

Lemma upload_ticks_hung {I J : Type} (ticks : list I) (rest : list J) :
  upload_ticks ticks (map (fun _ : J => @nil event) rest) = [].
Proof.
  unfold upload_ticks. revert ticks.
  induction rest as [|r rest IH]; intros [|t ticks]; try reflexivity.
  cbn. apply IH.
Qed.

Lemma upload_ticks_In {I : Type} (ticks : list I) (outs : list (list event))
  (x : I) :
  In x (upload_ticks ticks outs) -> In x ticks.
Proof.
  pose proof (upload_ticks_Forall (fun y => In y ticks) ticks outs) as H.
  rewrite !Forall_forall in H. intros Hx. apply H; [|exact Hx].
  intros y Hy. exact Hy.
Qed.

Section Paths.

Context {S I : Type}.
Variable loop : S -> I -> list event * outcome S.
Variable inv : S -> Prop.
Variable path : I -> string.
Hypothesis loop_path :
  forall (s : S) (i : I),
    inv s -> Forall (fun e => event_path e = path i) (fst (loop s i)).
Hypothesis loop_inv :
  forall (s s' : S) (i : I),
    inv s -> snd (loop s i) = Running s' -> inv s'.

(** The paths of a run are the paths of the iterations that sent. *)
Lemma run_paths (ticks : list I) :
  forall s : S,
    inv s ->
    map event_path (List.concat (run loop s ticks))
    = map path (upload_ticks ticks (run loop s ticks)).
Proof.
  induction ticks as [|i rest IH]; intros s Hs; [reflexivity|].
  cbn [run]. pose proof (loop_path s i Hs) as Hp.
  pose proof (loop_inv s) as Hi. specialize (Hi) with (i := i).
  destruct (loop s i) as [evs o]. cbn [fst snd] in Hp, Hi.
  unfold upload_ticks. cbn [combine flat_map fst snd List.concat].
  fold (upload_ticks rest
          (match o with
           | Running s' => run loop s' rest
           | _ => map (fun _ => []) rest
           end)).
  rewrite !map_app. f_equal.
  - clear -Hp. induction Hp as [|e evs He _ IHe]; [reflexivity|].
    cbn [map]. rewrite He, IHe. reflexivity.
  - destruct o as [s'| |].
    + apply IH. apply (Hi s' Hs eq_refl).
    + rewrite run_hung, upload_ticks_hung. reflexivity.
    + rewrite run_hung, upload_ticks_hung. reflexivity.
Qed.

End Paths.

Lemma gps_loop_path (s : GpsEsp.globals) (i : GpsEsp.iteration) :
  Forall (fun e => event_path e = gps_path i) (fst (GpsEsp.loop s i)).
Proof.
  unfold GpsEsp.loop, GpsEsp.upload.
  destruct (_ && _ && _ && _); [|constructor].
  destruct (GpsEsp.sendInterval <=? _); [|constructor].
  destruct (GpsEsp.getGPSEpochUTC _); cbn [bind]; [|constructor].
  destruct (GpsEsp.truncate5 (GpsEsp.location_lat _)); cbn [bind];
    [|constructor].
  destruct (GpsEsp.truncate5 (GpsEsp.location_lng _)); cbn [bind];
    [|constructor].
  constructor; [reflexivity | constructor].
Qed.

Lemma rtc_loop_path (r : Z) (s : RtcBtnSmokeEsp.machine)
  (i : RtcBtnSmokeEsp.iteration) :
  RtcBtnSmokeEsp.rtc_epoch s = r ->
  Forall (fun e => event_path e = rtc_path r i) (fst (RtcBtnSmokeEsp.loop s i)).
Proof.
  intros <-. unfold RtcBtnSmokeEsp.loop.
  destruct (RtcBtnSmokeEsp.app_ready i); [|constructor].
  destruct (RtcBtnSmokeEsp.sendInterval <=? _); [|constructor].
  constructor; [reflexivity | constructor].
Qed.

Lemma rtc_loop_keeps_rtc (r : Z) (s s' : RtcBtnSmokeEsp.machine)
  (i : RtcBtnSmokeEsp.iteration) :
  RtcBtnSmokeEsp.rtc_epoch s = r ->
  snd (RtcBtnSmokeEsp.loop s i) = Running s' ->
  RtcBtnSmokeEsp.rtc_epoch s' = r.
Proof.
  intros <-. unfold RtcBtnSmokeEsp.loop.
  destruct (RtcBtnSmokeEsp.app_ready i);
    [destruct (RtcBtnSmokeEsp.sendInterval <=? _)|];
    cbn [snd]; intros H; injection H as <-; reflexivity.
Qed.

(** X13: what holds of the keys of the GPS logger.  For one user, against
    readings of [millis()] that do not decrease (no wrap during the run),
    when every iteration reads its key less than one [sendInterval] after
    the reading that opened the gate, no two uploads of a run have the
    same path. *)
Theorem gps_paths_distinct (s : GpsEsp.globals)
  (ticks : list GpsEsp.iteration) (u : string) :
  is_ulong (GpsEsp.lastSendTime s) ->
  Sorted Z.le (GpsEsp.lastSendTime s :: map GpsEsp.millis_gate ticks) ->
  Forall is_ulong (map GpsEsp.millis_gate ticks) ->
  Forall (fun it => GpsEsp.millis_gate it <= GpsEsp.millis_key it
                    < GpsEsp.millis_gate it + GpsEsp.sendInterval) ticks ->
  Forall (fun it => GpsEsp.app_getUid it = u) ticks ->
  pairwise_distinct (map event_path (List.concat (run GpsEsp.loop s ticks))).
Proof.
  intros Hs Hsorted Hrange Hkeys Huid.
  rewrite (run_paths GpsEsp.loop (fun _ => True) gps_path
             (fun s i _ => gps_loop_path s i) (fun _ _ _ _ _ => I) ticks s I).
  destruct (schedules_never_twice _ _ _ _ gps_loop_schedules
              s ticks Hs Hsorted Hrange) as [_ Hapart].
  rewrite upload_times_ticks in Hapart.
  unfold apart in Hapart. apply ForallOrdPairs_map in Hapart.
  unfold pairwise_distinct. apply ForallOrdPairs_map.
  eapply ForallOrdPairs_impl_In; [|exact Hapart].
  intros a b Ha Hb Hab. cbn beta in Hab.
  apply upload_ticks_In in Ha. apply upload_ticks_In in Hb.
  rewrite Forall_forall in Hkeys, Huid.
  pose proof (Hkeys a Ha) as Hka. pose proof (Hkeys b Hb) as Hkb.
  assert (Hga : is_ulong (GpsEsp.millis_gate a)).
  { rewrite Forall_forall in Hrange. apply Hrange. apply in_map. exact Ha. }
  unfold gps_path. rewrite (Huid a Ha), (Huid b Hb). intros Heq.
  apply string_app_inv_head in Heq. apply string_app_inv_head in Heq.
  apply String_of_ulong_inj in Heq; unfold is_ulong in Hga; lia.
Qed.

Lemma gps_paths_distinct_witness :
  pairwise_distinct
    (map event_path (List.concat (run GpsEsp.loop GpsEsp.boot sample_gps_ticks))).
Proof.
  apply (gps_paths_distinct GpsEsp.boot sample_gps_ticks "u1").
  - unfold is_ulong, ulong_modulus. cbn. lia.
  - cbn. repeat constructor; lia.
  - cbn. unfold is_ulong, ulong_modulus. repeat constructor; lia.
  - repeat constructor; vm_compute; discriminate.
  - repeat constructor.
Defined.

(** X14: what holds of the keys of the sensor logger.  For one user,
    against readings of [millis()] that do not decrease, when the DS3231
    counts at least one more second over any [sendInterval] and its epoch
    stays within 32 bits, no two uploads of a run have the same path. *)
Theorem rtc_paths_distinct (s : RtcBtnSmokeEsp.machine)
  (ticks : list RtcBtnSmokeEsp.iteration) (u : string) :
  is_ulong (RtcBtnSmokeEsp.lastSendTime s) ->
  Sorted Z.le (RtcBtnSmokeEsp.lastSendTime s
               :: map RtcBtnSmokeEsp.millis_now ticks) ->
  Forall is_ulong (map RtcBtnSmokeEsp.millis_now ticks) ->
  Forall (fun it => RtcBtnSmokeEsp.app_getUid it = u) ticks ->
  Forall (fun it => is_ulong (RtcBtnSmokeEsp.rtc_epoch s
                              + RtcBtnSmokeEsp.rtc_elapsed it)) ticks ->
  (forall a b,
     In a ticks -> In b ticks ->
     RtcBtnSmokeEsp.millis_now a + RtcBtnSmokeEsp.sendInterval
     <= RtcBtnSmokeEsp.millis_now b ->
     RtcBtnSmokeEsp.rtc_elapsed a < RtcBtnSmokeEsp.rtc_elapsed b) ->
  pairwise_distinct
    (map event_path (List.concat (run RtcBtnSmokeEsp.loop s ticks))).
Proof.
  intros Hs Hsorted Hrange Huid Hrtc Hadv.
  rewrite (run_paths RtcBtnSmokeEsp.loop
             (fun s' => RtcBtnSmokeEsp.rtc_epoch s' = RtcBtnSmokeEsp.rtc_epoch s)
             (rtc_path (RtcBtnSmokeEsp.rtc_epoch s))
             (rtc_loop_path (RtcBtnSmokeEsp.rtc_epoch s))
             (rtc_loop_keeps_rtc (RtcBtnSmokeEsp.rtc_epoch s))
             ticks s eq_refl).
  destruct (schedules_never_twice _ _ _ _ rtc_loop_schedules
              s ticks Hs Hsorted Hrange) as [_ Hapart].
  rewrite upload_times_ticks in Hapart.
  unfold apart in Hapart. apply ForallOrdPairs_map in Hapart.
  unfold pairwise_distinct. apply ForallOrdPairs_map.
  eapply ForallOrdPairs_impl_In; [|exact Hapart].
  intros a b Ha Hb Hab. cbn beta in Hab.
  apply upload_ticks_In in Ha. apply upload_ticks_In in Hb.
  rewrite Forall_forall in Huid, Hrtc.
  pose proof (Hrtc a Ha) as Hra. pose proof (Hrtc b Hb) as Hrb.
  pose proof (Hadv a b Ha Hb Hab) as Hlt.
  unfold rtc_path, rtc_key. rewrite (Huid a Ha), (Huid b Hb). intros Heq.
  apply string_app_inv_head in Heq. apply string_app_inv_head in Heq.
  rewrite !to_ulong_small in Heq by assumption.
  apply String_of_ulong_inj in Heq; unfold is_ulong in *; lia.
Qed.

Lemma rtc_paths_distinct_witness :
  pairwise_distinct
    (map event_path
       (List.concat (run RtcBtnSmokeEsp.loop rtc_boot in_step_rtc_ticks))).
Proof.
  apply (rtc_paths_distinct rtc_boot in_step_rtc_ticks "u1").
  - unfold is_ulong, ulong_modulus. cbn. lia.
  - cbn. repeat constructor; lia.
  - cbn. unfold is_ulong, ulong_modulus. repeat constructor; lia.
  - repeat constructor.
  - unfold is_ulong, ulong_modulus. repeat constructor; cbn; lia.
  - intros a b Ha Hb.
    cbn in Ha, Hb.
    destruct Ha as [<- | [<- | [<- | []]]];
      destruct Hb as [<- | [<- | [<- | []]]];
      cbn; unfold RtcBtnSmokeEsp.sendInterval; lia.
Defined.

Lemma schedule_survives_wrap_witness :
  fst (GpsEsp.loop gps_before_wrap (gps_tick true sample_fix 52704)) <> []
  /\ fst (RtcBtnSmokeEsp.loop rtc_before_wrap (rtc_tick true 52704 4294960))
     <> [].
Proof.
  destruct (schedule_survives_wrap 4294960000 60000) as [G R].
  - unfold ulong_modulus. lia.
  - split.
    + apply (G gps_before_wrap (gps_tick true sample_fix 52704));
        first [ reflexivity
              | exact (conj eq_refl (conj eq_refl (conj eq_refl
                         (conj eq_refl sample_fix_defined))))
              | unfold GpsEsp.sendInterval; lia ].
    + apply (R rtc_before_wrap (rtc_tick true 52704 4294960));
        first [ reflexivity | unfold RtcBtnSmokeEsp.sendInterval; lia ].
Defined.

Lemma upload_rate_limit_witness :
  Z.of_nat (List.length
              (List.concat (run GpsEsp.loop GpsEsp.boot sample_gps_ticks)))
  * GpsEsp.sendInterval <= 360000 - 0
  /\ Z.of_nat (List.length
                 (List.concat
                    (run RtcBtnSmokeEsp.loop rtc_boot sample_rtc_ticks)))
     * RtcBtnSmokeEsp.sendInterval <= 360000 - 0.
Proof.
  apply (upload_rate_limit 360000 GpsEsp.boot sample_gps_ticks
           rtc_boot sample_rtc_ticks).
  - unfold is_ulong, ulong_modulus. cbn. lia.
  - cbn. repeat constructor; lia.
  - cbn. unfold is_ulong, ulong_modulus. repeat constructor; lia.
  - cbn. repeat constructor; lia.
  - cbn. lia.
  - unfold is_ulong, ulong_modulus. cbn. lia.
  - cbn. repeat constructor; lia.
  - cbn. unfold is_ulong, ulong_modulus. repeat constructor; lia.
  - cbn. repeat constructor; lia.
  - cbn. lia.
Defined.

(** ** Boot, beyond the reconciliation *)

Lemma gps_wifi_wait_connects (connected : Z -> bool) (k : nat) :
  forall (fuel : nat) (b : GpsEsp.board),
    (k <= fuel)%nat ->
    (forall j, 0 <= j < Z.of_nat k ->
               connected (GpsEsp.clock b + 1000 * j) = false) ->
    connected (GpsEsp.clock b + 1000 * Z.of_nat k) = true ->
    GpsEsp.wifi_wait connected fuel b
    = Some {| GpsEsp.clock := GpsEsp.clock b + 1000 * Z.of_nat k;
              GpsEsp.serial := GpsEsp.serial b ++ repeat "."%string k |}.
Proof.
  induction k as [|k IH]; intros fuel b Hfuel Hdown Hup.
  - replace (GpsEsp.clock b + 1000 * Z.of_nat 0) with (GpsEsp.clock b) in *
      by lia.
    destruct fuel; cbn [GpsEsp.wifi_wait]; rewrite Hup;
      cbn [repeat]; rewrite app_nil_r; destruct b; reflexivity.
  - destruct fuel as [|fuel]; [lia|]. cbn [GpsEsp.wifi_wait].
    assert (H0 : connected (GpsEsp.clock b) = false).
    { specialize (Hdown 0 ltac:(lia)).
      replace (GpsEsp.clock b + 1000 * 0) with (GpsEsp.clock b) in Hdown
        by lia.
      exact Hdown. }
    rewrite H0.
    rewrite (IH fuel (GpsEsp.delay 1000 (GpsEsp.print "." b))).
    + cbn [GpsEsp.delay GpsEsp.print GpsEsp.clock GpsEsp.serial].
      f_equal. f_equal; [lia|].
      rewrite <- app_assoc. reflexivity.
    + lia.
    + intros j Hj.
      cbn [GpsEsp.delay GpsEsp.print GpsEsp.clock].
      replace (GpsEsp.clock b + 1000 + 1000 * j)
        with (GpsEsp.clock b + 1000 * (j + 1)) by lia.
      apply Hdown. lia.
    + cbn [GpsEsp.delay GpsEsp.print GpsEsp.clock].
      replace (GpsEsp.clock b + 1000 + 1000 * Z.of_nat k)
        with (GpsEsp.clock b + 1000 * Z.of_nat (S k)) by lia.
      exact Hup.
Qed.

Lemma rtc_wifi_wait_connects (connected : Z -> bool) (k : nat) :
  forall (fuel : nat) (w : RtcBtnSmokeEsp.world),
    (k <= fuel)%nat ->
    (forall j, 0 <= j < Z.of_nat k ->
               connected (RtcBtnSmokeEsp.clock w + 500 * j) = false) ->
    connected (RtcBtnSmokeEsp.clock w + 500 * Z.of_nat k) = true ->
    RtcBtnSmokeEsp.wifi_wait connected fuel w
    = Some {| RtcBtnSmokeEsp.clock :=
                RtcBtnSmokeEsp.clock w + 500 * Z.of_nat k;
              RtcBtnSmokeEsp.rtc := RtcBtnSmokeEsp.rtc w;
              RtcBtnSmokeEsp.serial :=
                RtcBtnSmokeEsp.serial w ++ repeat "."%string k |}.
Proof.
  induction k as [|k IH]; intros fuel w Hfuel Hdown Hup.
  - replace (RtcBtnSmokeEsp.clock w + 500 * Z.of_nat 0)
      with (RtcBtnSmokeEsp.clock w) in * by lia.
    destruct fuel; cbn [RtcBtnSmokeEsp.wifi_wait]; rewrite Hup;
      cbn [repeat]; rewrite app_nil_r; destruct w; reflexivity.
  - destruct fuel as [|fuel]; [lia|]. cbn [RtcBtnSmokeEsp.wifi_wait].
    assert (H0 : connected (RtcBtnSmokeEsp.clock w) = false).
    { specialize (Hdown 0 ltac:(lia)).
      replace (RtcBtnSmokeEsp.clock w + 500 * 0)
        with (RtcBtnSmokeEsp.clock w) in Hdown by lia.
      exact Hdown. }
    rewrite H0.
    rewrite (IH fuel (RtcBtnSmokeEsp.delay 500 (RtcBtnSmokeEsp.print "." w))).
    + cbn [RtcBtnSmokeEsp.delay RtcBtnSmokeEsp.print RtcBtnSmokeEsp.clock
             RtcBtnSmokeEsp.serial RtcBtnSmokeEsp.rtc].
      f_equal. f_equal; [lia|].
      rewrite <- app_assoc. reflexivity.
    + lia.
    + intros j Hj.
      cbn [RtcBtnSmokeEsp.delay RtcBtnSmokeEsp.print RtcBtnSmokeEsp.clock].
      replace (RtcBtnSmokeEsp.clock w + 500 + 500 * j)
        with (RtcBtnSmokeEsp.clock w + 500 * (j + 1)) by lia.
      apply Hdown. lia.
    + cbn [RtcBtnSmokeEsp.delay RtcBtnSmokeEsp.print RtcBtnSmokeEsp.clock].
      replace (RtcBtnSmokeEsp.clock w + 500 + 500 * Z.of_nat k)
        with (RtcBtnSmokeEsp.clock w + 500 * Z.of_nat (S k)) by lia.
      exact Hup.
Qed.

Lemma gps_wifi_wait_blocks (connected : Z -> bool) (fuel : nat) :
  (forall t, connected t = false) ->
  forall b : GpsEsp.board, GpsEsp.wifi_wait connected fuel b = None.
Proof.
  intros Hdown. induction fuel as [|fuel IH]; intros b;
    cbn [GpsEsp.wifi_wait]; rewrite Hdown; [reflexivity | apply IH].
Qed.

Lemma rtc_wifi_wait_blocks (connected : Z -> bool) (fuel : nat) :
  (forall t, connected t = false) ->
  forall w : RtcBtnSmokeEsp.world,
    RtcBtnSmokeEsp.wifi_wait connected fuel w = None.
Proof.
  intros Hdown. induction fuel as [|fuel IH]; intros w;
    cbn [RtcBtnSmokeEsp.wifi_wait]; rewrite Hdown; [reflexivity | apply IH].
Qed.

(** X15: the wait for WiFi has no timeout, unlike the wait for network
    time: while the WiFi stays down [setup()] does not return, in either
    sketch, however many iterations are allowed. *)
Theorem setup_blocks_without_wifi (connected : Z -> bool) (fuel : nat)
  (b : GpsEsp.board) (w : RtcBtnSmokeEsp.world)
  (rtc_begin : bool) (localIP : string) (time : Z -> Z) :
  (forall t, connected t = false) ->
  GpsEsp.setup connected fuel b = None
  /\ RtcBtnSmokeEsp.setup rtc_begin connected localIP time fuel w = None.
Proof.
  intros Hdown. split.
  - unfold GpsEsp.setup. rewrite gps_wifi_wait_blocks by exact Hdown.
    reflexivity.
  - unfold RtcBtnSmokeEsp.setup, RtcBtnSmokeEsp.initWiFi.
    rewrite rtc_wifi_wait_blocks by exact Hdown. reflexivity.
Qed.

Lemma setup_blocks_without_wifi_witness :
  GpsEsp.setup wifi_down 1000 cold_gps_board = None
  /\ RtcBtnSmokeEsp.setup true wifi_down "10.0.0.2" sntp_never 1000 cold_board
     = None.
Proof.
  apply setup_blocks_without_wifi. intros t. reflexivity.
Defined.

(** X16: [setup()] of the GPS logger returns at the first poll, one second
    apart, that finds the WiFi connected: after [k] polls that found it
    down the clock has advanced by [k] seconds, and the serial line shows
    the announcement, [k] dots, the confirmation and the closing
    message. *)
Theorem gps_setup_returns (connected : Z -> bool) (k fuel : nat)
  (b : GpsEsp.board) :
  (k <= fuel)%nat ->
  (forall j, 0 <= j < Z.of_nat k ->
             connected (GpsEsp.clock b + 1000 * j) = false) ->
  connected (GpsEsp.clock b + 1000 * Z.of_nat k) = true ->
  GpsEsp.setup connected fuel b
  = Some {| GpsEsp.clock := GpsEsp.clock b + 1000 * Z.of_nat k;
            GpsEsp.serial :=
              GpsEsp.serial b
              ++ ["Connecting to WiFi .."%string]
              ++ repeat "."%string k
              ++ [" CONNECTED!"%string; GpsEsp.msg_setup_complete] |}.
Proof.
  intros Hfuel Hdown Hup. unfold GpsEsp.setup.
  rewrite (gps_wifi_wait_connects connected k fuel
             (GpsEsp.print "Connecting to WiFi .." b) Hfuel Hdown Hup).
  unfold GpsEsp.print. cbn [GpsEsp.clock GpsEsp.serial].
  do 2 f_equal. rewrite <- !app_assoc. reflexivity.
Qed.

Lemma gps_setup_returns_witness :
  GpsEsp.setup (wifi_up_from 2500) 5 cold_gps_board
  = Some {| GpsEsp.clock := 0 + 1000 * Z.of_nat 3;
            GpsEsp.serial :=
              []
              ++ ["Connecting to WiFi .."%string]
              ++ repeat "."%string 3
              ++ [" CONNECTED!"%string; GpsEsp.msg_setup_complete] |}.
Proof.
  apply (gps_setup_returns (wifi_up_from 2500) 3 5 cold_gps_board).
  - lia.
  - intros j Hj. unfold wifi_up_from, cold_gps_board.
    cbn [GpsEsp.clock]. apply Z.leb_gt. lia.
  - reflexivity.
Defined.

Lemma ntp_sync_returns (time : Z -> Z) (fuel : nat) (w : RtcBtnSmokeEsp.world) :
  (20 <= fuel)%nat ->
  exists w' n,
    RtcBtnSmokeEsp.ntp_sync time fuel w = Some w'
    /\ 0 <= n <= 20
    /\ RtcBtnSmokeEsp.clock w' = RtcBtnSmokeEsp.clock w + 500 * n.
Proof.
  intros Hfuel.
  set (w0 := RtcBtnSmokeEsp.print RtcBtnSmokeEsp.msg_syncing w).
  destruct (ntp_wait_stops time (RtcBtnSmokeEsp.clock w) 20 fuel w0 Hfuel
              (le_n 20) ltac:(cbn; lia))
    as (n & w1 & Hrun & Hn & Hclock & _).
  change (Z.of_nat 20) with 20 in Hn.
  unfold RtcBtnSmokeEsp.ntp_sync. fold w0.
  change (RtcBtnSmokeEsp.millis w0) with (to_ulong (RtcBtnSmokeEsp.clock w)).
  change (RtcBtnSmokeEsp.clock w0) with (RtcBtnSmokeEsp.clock w) in Hrun |- *.
  rewrite Hrun.
  destruct (RtcBtnSmokeEsp.ntp_floor <=? time (RtcBtnSmokeEsp.clock w1));
    eexists; exists n; (split; [reflexivity|]); (split; [lia|]);
    cbn [RtcBtnSmokeEsp.print RtcBtnSmokeEsp.rtc_adjust RtcBtnSmokeEsp.clock];
    exact Hclock.
Qed.

(** X17: [setup()] of the sensor logger returns once the WiFi connects,
    whether or not the RTC was found and whether or not network time
    arrives: after the 20.1 s of warm-up, [k] half-second polls for the
    WiFi and at most 20 for network time, and its last message is
    "Setup complete.". *)
Theorem rtc_setup_returns (rtc_begin : bool) (connected : Z -> bool)
  (localIP : string) (time : Z -> Z) (k fuel : nat)
  (w : RtcBtnSmokeEsp.world) :
  (k <= fuel)%nat -> (20 <= fuel)%nat ->
  (forall j, 0 <= j < Z.of_nat k ->
             connected (RtcBtnSmokeEsp.clock w + 20100 + 500 * j) = false) ->
  connected (RtcBtnSmokeEsp.clock w + 20100 + 500 * Z.of_nat k) = true ->
  exists w' n,
    RtcBtnSmokeEsp.setup rtc_begin connected localIP time fuel w = Some w'
    /\ 0 <= n <= 20
    /\ RtcBtnSmokeEsp.clock w'
       = RtcBtnSmokeEsp.clock w + 20100 + 500 * Z.of_nat k + 500 * n
    /\ last (RtcBtnSmokeEsp.serial w') EmptyString
       = RtcBtnSmokeEsp.msg_setup_complete.
Proof.
  intros Hk Hfuel Hdown Hup.
  unfold RtcBtnSmokeEsp.setup, RtcBtnSmokeEsp.initWiFi.
  set (w1 := if negb rtc_begin then _ else _).
  assert (Hc1 : RtcBtnSmokeEsp.clock w1 = RtcBtnSmokeEsp.clock w + 20100).
  { unfold w1. destruct rtc_begin; cbn; lia. }
  rewrite (rtc_wifi_wait_connects connected k fuel
             (RtcBtnSmokeEsp.print "Connecting to WiFi .." w1)).
  - match goal with
    | |- context [RtcBtnSmokeEsp.ntp_sync time fuel ?w2] =>
        destruct (ntp_sync_returns time fuel w2 Hfuel)
          as (w' & n & -> & Hn & Hclock)
    end.
    eexists; exists n. split; [reflexivity|]. split; [exact Hn|]. split.
    + cbn [RtcBtnSmokeEsp.print RtcBtnSmokeEsp.clock] in Hclock |- *.
      rewrite Hclock, Hc1. reflexivity.
    + unfold RtcBtnSmokeEsp.print at 1. cbn [RtcBtnSmokeEsp.serial].
      apply last_app_singleton.
  - exact Hk.
  - intros j Hj. cbn [RtcBtnSmokeEsp.print RtcBtnSmokeEsp.clock].
    rewrite Hc1. apply Hdown. exact Hj.
  - cbn [RtcBtnSmokeEsp.print RtcBtnSmokeEsp.clock]. rewrite Hc1. exact Hup.
Qed.

Lemma rtc_setup_returns_witness :
  exists w' n,
    RtcBtnSmokeEsp.setup false (wifi_up_from 21000) "10.0.0.2" sntp_never 20
      cold_board = Some w'
    /\ 0 <= n <= 20
    /\ RtcBtnSmokeEsp.clock w' = 0 + 20100 + 500 * Z.of_nat 2 + 500 * n
    /\ last (RtcBtnSmokeEsp.serial w') EmptyString
       = RtcBtnSmokeEsp.msg_setup_complete.
Proof.
  apply (rtc_setup_returns false (wifi_up_from 21000) "10.0.0.2" sntp_never
           2 20 cold_board).
  - lia.
  - lia.
  - intros j Hj. unfold wifi_up_from, cold_board.
    cbn [RtcBtnSmokeEsp.clock]. apply Z.leb_gt. lia.
  - reflexivity.
Defined.

Lemma rtc_wifi_wait_same (connected : Z -> bool) (fuel : nat) :
  forall w1 w2 : RtcBtnSmokeEsp.world,
    same_board w1 w2 ->
    same_outcome (RtcBtnSmokeEsp.wifi_wait connected fuel w1)
                 (RtcBtnSmokeEsp.wifi_wait connected fuel w2).
Proof.
  induction fuel as [|fuel IH]; intros w1 w2 [Hc Hr];
    cbn [RtcBtnSmokeEsp.wifi_wait]; rewrite Hc;
    destruct (connected (RtcBtnSmokeEsp.clock w2));
    try (split; assumption); try exact I.
  apply IH. split; cbn; congruence.
Qed.

Lemma ntp_wait_same (time : Z -> Z) (startMillis : Z) (fuel : nat) :
  forall (now : Z) (w1 w2 : RtcBtnSmokeEsp.world),
    same_board w1 w2 ->
    match RtcBtnSmokeEsp.ntp_wait time fuel startMillis now w1,
          RtcBtnSmokeEsp.ntp_wait time fuel startMillis now w2 with
    | Some (n1, a), Some (n2, b) => n1 = n2 /\ same_board a b
    | None, None => True
    | _, _ => False
    end.
Proof.
  induction fuel as [|fuel IH]; intros now w1 w2 [Hc Hr];
    cbn [RtcBtnSmokeEsp.ntp_wait]; unfold RtcBtnSmokeEsp.millis; rewrite Hc;
    destruct ((now <? RtcBtnSmokeEsp.ntp_floor) && _);
    try (split; [reflexivity | split; assumption]); try exact I.
  cbn [RtcBtnSmokeEsp.delay RtcBtnSmokeEsp.print RtcBtnSmokeEsp.clock].
  rewrite Hc. apply IH. split; cbn; congruence.
Qed.

Lemma ntp_sync_same (time : Z -> Z) (fuel : nat)
  (w1 w2 : RtcBtnSmokeEsp.world) :
  same_board w1 w2 ->
  same_outcome (RtcBtnSmokeEsp.ntp_sync time fuel w1)
               (RtcBtnSmokeEsp.ntp_sync time fuel w2).
Proof.
  intros [Hc Hr]. unfold RtcBtnSmokeEsp.ntp_sync.
  assert (Hs : same_board (RtcBtnSmokeEsp.print RtcBtnSmokeEsp.msg_syncing w1)
                          (RtcBtnSmokeEsp.print RtcBtnSmokeEsp.msg_syncing w2))
    by (split; cbn; assumption).
  unfold RtcBtnSmokeEsp.millis.
  cbn [RtcBtnSmokeEsp.print RtcBtnSmokeEsp.clock]. rewrite Hc.
  pose proof (ntp_wait_same time (to_ulong (RtcBtnSmokeEsp.clock w2)) fuel
                (time (RtcBtnSmokeEsp.clock w2)) _ _ Hs) as H.
  unfold RtcBtnSmokeEsp.print in H |- *.
  destruct (RtcBtnSmokeEsp.ntp_wait _ _ _ _ _) as [[n1 a]|];
    destruct (RtcBtnSmokeEsp.ntp_wait _ _ _ _ _) as [[n2 b]|];
    try contradiction; try exact I.
  destruct H as [<- [Hca Hra]].
  destruct (RtcBtnSmokeEsp.ntp_floor <=? n1); split; cbn;
    solve [assumption | reflexivity].
Qed.

(** X18: a DS3231 that is not found is not fatal and changes nothing but
    the serial output: [setup()] with [rtc.begin()] false returns exactly
    when it returns with [rtc.begin()] true, at the same instant and with
    the same epoch written to, or left in, the chip. *)
Theorem rtc_missing_is_not_fatal (connected : Z -> bool) (localIP : string)
  (time : Z -> Z) (fuel : nat) (w : RtcBtnSmokeEsp.world) :
  same_outcome
    (RtcBtnSmokeEsp.setup true connected localIP time fuel w)
    (RtcBtnSmokeEsp.setup false connected localIP time fuel w).
Proof.
  unfold RtcBtnSmokeEsp.setup, RtcBtnSmokeEsp.initWiFi. cbn [negb].
  match goal with
  | |- same_outcome
         match match RtcBtnSmokeEsp.wifi_wait _ _ ?a with _ => _ end with _ => _ end
         match match RtcBtnSmokeEsp.wifi_wait _ _ ?b with _ => _ end with _ => _ end =>
      pose proof (rtc_wifi_wait_same connected fuel a b
                    ltac:(split; reflexivity)) as H
  end.
  destruct (RtcBtnSmokeEsp.wifi_wait _ _ _) as [a|];
    destruct (RtcBtnSmokeEsp.wifi_wait _ _ _) as [b|];
    try contradiction; try exact I.
  match goal with
  | |- same_outcome
         match RtcBtnSmokeEsp.ntp_sync _ _ ?a' with _ => _ end
         match RtcBtnSmokeEsp.ntp_sync _ _ ?b' with _ => _ end =>
      pose proof (ntp_sync_same time fuel a' b'
                    ltac:(destruct H; split; cbn; assumption)) as H2
  end.
  destruct (RtcBtnSmokeEsp.ntp_sync _ _ _) as [a2|];
    destruct (RtcBtnSmokeEsp.ntp_sync _ _ _) as [b2|];
    try contradiction; try exact I.
  destruct H2. split; cbn; assumption.
Qed.

(** ** The callbacks *)

(** X19: the callbacks stay silent for what is not a result, and never
    swallow an error: for a result with the error flag, the line with the
    message and the code of the error is among the lines printed, whatever
    the other flags are.  Both sketches. *)
Theorem processData_reports_errors (r : AsyncResult) :
  (isResult r = false ->
   GpsEsp.processData r = [] /\ RtcBtnSmokeEsp.processData r = [])
  /\ (isResult r = true -> isError r = true ->
      In ("Error: " ++ error_message r ++ " (code "
          ++ String_of_int (error_code r) ++ ")" ++ newline)%string
         (GpsEsp.processData r)
      /\ In ("Error: " ++ result_uid r ++ ", msg: " ++ error_message r
             ++ ", code: " ++ String_of_int (error_code r) ++ newline)%string
            (RtcBtnSmokeEsp.processData r)).
Proof.
  unfold GpsEsp.processData, RtcBtnSmokeEsp.processData. split.
  - intros ->. split; reflexivity.
  - intros -> ->. cbn [negb]. split.
    + apply in_or_app. right. apply in_or_app. left. left. reflexivity.
    + apply in_or_app. right. apply in_or_app. right.
      apply in_or_app. left. left. reflexivity.
Qed.

Lemma processData_reports_errors_witness :
  In ("Error: unauthorized (code 401)" ++ newline)%string
     (GpsEsp.processData sample_error)
  /\ In ("Error: RTDB_Send_Data, msg: unauthorized, code: 401"
         ++ newline)%string
        (RtcBtnSmokeEsp.processData sample_error).
Proof.
  apply (proj2 (processData_reports_errors sample_error)); reflexivity.
Defined.

(** ** The schedule against the uptime *)

Section UptimeScheduler.

Context {S I : Type}.
Variable loop : S -> I -> list event * outcome S.
Variable last : S -> Z.
Variable now : I -> Z.
Variable interval : Z.
Hypothesis interval_range : 0 <= interval <= ulong_modulus.
Hypothesis loop_schedules : schedules loop last now interval.

(** What the [unsigned long] subtraction sees of an elapsed time [u - L]
    that is not negative: if it is at least [interval], so is [u - L]. *)
Lemma elapsed_seen (L u : Z) :
  L <= u -> interval <= to_ulong (to_ulong u - to_ulong L) ->
  interval <= u - L.
Proof.
  intros Hle Hseen. rewrite to_ulong_sub in Hseen.
  destruct (Z_lt_le_dec (u - L) interval) as [Hsmall|Hok]; [|exact Hok].
  rewrite to_ulong_small in Hseen by lia. lia.
Qed.

Lemma schedules_never_twice_in_uptime :
  never_twice_in_uptime loop last now interval.
Proof.
  intros s ticks. revert s.
  induction ticks as [|i rest IH]; intros s L ups HL Hsorted Hmap times;
    subst times.
  { cbn [run]. unfold upload_times. rewrite combine_nil. split; constructor. }
  destruct ups as [|u ups]; [discriminate|].
  cbn [map] in Hmap. injection Hmap as Hnow Hmap.
  cbn [run]. pose proof (loop_schedules s i) as H.
  destruct (loop s i) as [evs o].
  rewrite upload_times_cons.
  pose proof (Sorted_le_head _ _ Hsorted) as Hge.
  inversion Hge as [|? ? Hu _]; subst.
  destruct evs as [|e [|e' evs]]; [| |contradiction].
  - (* nothing sent *)
    cbn [map app].
    destruct o as [s'| |]; try (rewrite upload_times_hung; split; constructor).
    specialize (H s' eq_refl).
    apply (IH s' L ups);
      [rewrite H; exact HL
      | apply Sorted_le_skip with (b := u); exact Hsorted
      | exact Hmap].
  - (* one request *)
    destruct H as [Hlate Hlast].
    rewrite Hnow, HL in Hlate.
    pose proof (elapsed_seen L u Hu Hlate) as Hd.
    cbn [map app].
    destruct o as [s'| |];
      try (rewrite upload_times_hung; split;
           [constructor; [lia | constructor] | constructor; constructor]).
    specialize (Hlast s' eq_refl).
    destruct (IH s' u ups) as [IHlate IHapart];
      [rewrite Hlast; exact Hnow
      | inversion Hsorted; assumption
      | exact Hmap |].
    split.
    + constructor; [lia|].
      eapply Forall_impl; [|exact IHlate]. cbn. intros t Ht. lia.
    + constructor; [exact IHlate | exact IHapart].
Qed.

(** Iterations whose uptime is within one interval of the last send send
    nothing. *)
Lemma schedules_quiet_in_uptime (rest : list I) :
  forall (s : S) (u : Z) (rups : list Z),
    last s = to_ulong u ->
    map now rest = map to_ulong rups ->
    Forall (fun r => u <= r < u + interval) rups ->
    List.concat (run loop s rest) = [].
Proof.
  induction rest as [|r rest IH]; intros s u rups Hs Hmap Hrest;
    [reflexivity|].
  destruct rups as [|ru rups]; [discriminate|].
  cbn [map] in Hmap. injection Hmap as Hnow Hmap.
  inversion Hrest as [|? ? Hr Hrest']; subst.
  cbn [run]. pose proof (loop_schedules s r) as H.
  destruct (loop s r) as [evs o].
  destruct evs as [|e [|e' evs]]; [| |contradiction].
  - cbn [List.concat app].
    destruct o as [s'| |]; try apply run_hung.
    specialize (H s' eq_refl).
    apply (IH s' u rups); [rewrite H; exact Hs | exact Hmap | exact Hrest'].
  - destruct H as [Hlate _].
    rewrite Hnow, Hs in Hlate.
    pose proof (elapsed_seen u ru ltac:(lia) Hlate). lia.
Qed.

Hypothesis may_send : I -> Prop.
Hypothesis loop_sends :
  forall (s : S) (i : I),
    may_send i -> interval <= to_ulong (now i - last s) ->
    exists e, fst (loop s i) = [e].

Lemma schedules_one_after_stall_in_uptime :
  one_upload_after_stall_in_uptime loop last now interval may_send.
Proof.
  intros s it rest L u rups k Hk Hs Hnow Hstall Hseen Hopen Hmap Hrest.
  assert (Hlate : interval <= to_ulong (now it - last s))
    by (rewrite Hnow, Hs, to_ulong_sub; exact Hseen).
  destruct (loop_sends s it Hopen Hlate) as [e He].
  exists e. split; [exact He|].
  cbn [run]. pose proof (loop_schedules s it) as H.
  destruct (loop s it) as [evs o]. cbn [fst] in He. subst evs.
  destruct H as [_ Hlast].
  cbn [List.concat app]. f_equal.
  destruct o as [s'| |]; try apply run_hung.
  apply (schedules_quiet_in_uptime rest s' u rups);
    [rewrite (Hlast s' eq_refl); exact Hnow | exact Hmap | exact Hrest].
Qed.

End UptimeScheduler.

(** C3, as amended: against a millisecond clock that does not decrease,
    [millis()] reading it modulo 2^32, both sketches send any two uploads
    at least one [sendInterval] apart, wraps of [millis()] included; an
    iteration sends at most one upload; and after a stall of one or several
    intervals whose length modulo 2^32 ms is at least one interval (any
    stall shorter than 2^32 ms), exactly one upload is sent on resumption,
    none for the intervals missed. *)
Theorem scheduler_spacing :
  never_twice_in_uptime GpsEsp.loop GpsEsp.lastSendTime
    GpsEsp.millis_gate GpsEsp.sendInterval
  /\ never_twice_in_uptime RtcBtnSmokeEsp.loop RtcBtnSmokeEsp.lastSendTime
       RtcBtnSmokeEsp.millis_now RtcBtnSmokeEsp.sendInterval
  /\ at_most_one_per_tick GpsEsp.loop
  /\ at_most_one_per_tick RtcBtnSmokeEsp.loop
  /\ one_upload_after_stall_in_uptime GpsEsp.loop GpsEsp.lastSendTime
       GpsEsp.millis_gate GpsEsp.sendInterval gps_may_send
  /\ one_upload_after_stall_in_uptime RtcBtnSmokeEsp.loop
       RtcBtnSmokeEsp.lastSendTime RtcBtnSmokeEsp.millis_now
       RtcBtnSmokeEsp.sendInterval rtc_may_send.
Proof.
  assert (Hg : 0 <= GpsEsp.sendInterval <= ulong_modulus)
    by (unfold GpsEsp.sendInterval, ulong_modulus; lia).
  assert (Hr : 0 <= RtcBtnSmokeEsp.sendInterval <= ulong_modulus)
    by (unfold RtcBtnSmokeEsp.sendInterval, ulong_modulus; lia).
  pose proof gps_loop_schedules as Sg.
  pose proof rtc_loop_schedules as Sr.
  split; [|split; [|split; [|split; [|split]]]].
  - apply schedules_never_twice_in_uptime; assumption.
  - apply schedules_never_twice_in_uptime; assumption.
  - eapply schedules_at_most_one; exact Sg.
  - eapply schedules_at_most_one; exact Sr.
  - apply schedules_one_after_stall_in_uptime; try assumption.
    exact gps_loop_sends.
  - apply schedules_one_after_stall_in_uptime; try assumption.
    exact rtc_loop_sends.
Qed.

Lemma sample_may_send (t : Z) : gps_may_send (gps_tick true sample_fix t).
Proof.
  exact (conj eq_refl (conj eq_refl (conj eq_refl
           (conj eq_refl sample_fix_defined)))).
Defined.

Lemma scheduler_spacing_witness :
  apart GpsEsp.sendInterval
    (upload_times wrapped_gps_uptimes
       (run GpsEsp.loop GpsEsp.boot wrapped_gps_ticks))
  /\ apart RtcBtnSmokeEsp.sendInterval
       (upload_times [0; 5999; 6000; 6050; 11999; 30000; 30050; 35999; 36000]
          (run RtcBtnSmokeEsp.loop rtc_boot sample_rtc_ticks))
  /\ (exists e,
        List.concat
          (run GpsEsp.loop gps_before_wrap
             (gps_tick true sample_fix 52704
              :: map (gps_tick true sample_fix) [52705; 112703]))
        = [e])
  /\ (exists e,
        List.concat
          (run RtcBtnSmokeEsp.loop rtc_before_wrap
             (rtc_tick true 52704 4294960
              :: map (fun t => rtc_tick true t 4294960) [52705; 58703]))
        = [e]).
Proof.
  destruct scheduler_spacing as (G & R & _ & _ & SG & SR).
  split; [|split; [|split]].
  - apply (G GpsEsp.boot wrapped_gps_ticks 0 wrapped_gps_uptimes).
    + reflexivity.
    + unfold wrapped_gps_uptimes. repeat constructor; lia.
    + reflexivity.
  - apply (R rtc_boot sample_rtc_ticks 0
             [0; 5999; 6000; 6050; 11999; 30000; 30050; 35999; 36000]).
    + reflexivity.
    + repeat constructor; lia.
    + reflexivity.
  - destruct (SG gps_before_wrap (gps_tick true sample_fix 52704)
                (map (gps_tick true sample_fix) [52705; 112703])
                4294960000 4295020000 [4295020001; 4295079999] 1)
      as (e & _ & He).
    + lia.
    + reflexivity.
    + reflexivity.
    + unfold GpsEsp.sendInterval. lia.
    + unfold GpsEsp.sendInterval. vm_compute. discriminate.
    + apply sample_may_send.
    + reflexivity.
    + unfold GpsEsp.sendInterval. repeat constructor; lia.
    + exists e. exact He.
  - destruct (SR rtc_before_wrap (rtc_tick true 52704 4294960)
                (map (fun t => rtc_tick true t 4294960) [52705; 58703])
                4294960000 4295020000 [4295020001; 4295025999] 10)
      as (e & _ & He).
    + lia.
    + reflexivity.
    + reflexivity.
    + unfold RtcBtnSmokeEsp.sendInterval. lia.
    + unfold RtcBtnSmokeEsp.sendInterval. vm_compute. discriminate.
    + reflexivity.
    + reflexivity.
    + unfold RtcBtnSmokeEsp.sendInterval. repeat constructor; lia.
    + exists e. exact He.
Defined.

(** C3, as stated, fails for a stall of 2^32 + 10 ms: [millis()] reads 10
    more than at the last send, so the iteration that resumes, allowed to
    send, sends nothing, in either sketch. *)
Lemma stall_of_a_full_wrap_sends_nothing :
  fst (GpsEsp.loop gps_sent_at_100s (gps_tick true sample_fix 100010)) = []
  /\ fst (RtcBtnSmokeEsp.loop rtc_sent_at_100s (rtc_tick true 100010 4295067))
     = []
  /\ ~ one_upload_after_any_stall GpsEsp.loop GpsEsp.lastSendTime
         GpsEsp.millis_gate GpsEsp.sendInterval gps_may_send
  /\ ~ one_upload_after_any_stall RtcBtnSmokeEsp.loop
         RtcBtnSmokeEsp.lastSendTime RtcBtnSmokeEsp.millis_now
         RtcBtnSmokeEsp.sendInterval rtc_may_send.
Proof.
  split; [vm_compute; reflexivity|]. split; [vm_compute; reflexivity|]. split.
  - intros H.
    destruct (H gps_sent_at_100s (gps_tick true sample_fix 100010) []
                100000 4295067306 [] 71582) as (e & He & _).
    + lia.
    + reflexivity.
    + reflexivity.
    + unfold GpsEsp.sendInterval. lia.
    + apply sample_may_send.
    + reflexivity.
    + constructor.
    + vm_compute in He. discriminate He.
  - intros H.
    destruct (H rtc_sent_at_100s (rtc_tick true 100010 4295067) []
                100000 4295067306 [] 715827) as (e & He & _).
    + lia.
    + reflexivity.
    + reflexivity.
    + unfold RtcBtnSmokeEsp.sendInterval. lia.
    + reflexivity.
    + reflexivity.
    + constructor.
    + vm_compute in He. discriminate He.
Qed.

(** ** The failsafe of the GPS logger *)

(** X10: once the failsafe of the GPS logger fires (more than 10 s of
    uptime and fewer than 10 characters counted from the receiver) the
    device hangs and no later iteration sends anything.  The check comes
    after the upload block: an upload that is due in that iteration
    (session ready, valid fix with defined values, interval elapsed) is
    still sent, to the path of that iteration, before the device hangs. *)
Theorem failsafe_halts (s : GpsEsp.globals) (it : GpsEsp.iteration)
  (rest : list GpsEsp.iteration) :
  GpsEsp.failsafe it = true ->
  run GpsEsp.loop s (it :: rest)
  = fst (GpsEsp.loop s it) :: map (fun _ => []) rest
  /\ (gps_may_send it ->
      GpsEsp.sendInterval
      <= to_ulong (GpsEsp.millis_gate it - GpsEsp.lastSendTime s) ->
      exists e,
        run GpsEsp.loop s (it :: rest) = [e] :: map (fun _ => []) rest
        /\ event_path e = gps_path it)
  /\ (fst (GpsEsp.loop s it) <> [] ->
      GpsEsp.sendInterval
      <= to_ulong (GpsEsp.millis_gate it - GpsEsp.lastSendTime s)).
Proof.
  intros Hfs.
  assert (Hrun : run GpsEsp.loop s (it :: rest)
                 = fst (GpsEsp.loop s it) :: map (fun _ => []) rest).
  { cbn [run]. unfold GpsEsp.loop. rewrite Hfs.
    destruct (GpsEsp.upload s it) as [[s' evs]|]; reflexivity. }
  split; [exact Hrun|]. split.
  - intros Hmay Hlate.
    destruct (gps_loop_sends s it Hmay Hlate) as [e He].
    exists e. split; [rewrite Hrun, He; reflexivity|].
    pose proof (gps_loop_path s it) as Hp. rewrite He in Hp.
    inversion Hp; assumption.
  - intros Hsent. pose proof (gps_loop_schedules s it) as H.
    destruct (GpsEsp.loop s it) as [evs o]. cbn [fst] in Hsent.
    destruct evs as [|e [|e' evs]]; [contradiction | apply H | contradiction].
Qed.

Lemma failsafe_halts_witness :
  exists e,
    run GpsEsp.loop GpsEsp.boot
      (gps_tick true fix_after_count_wrap 70000
       :: map (gps_tick true sample_fix) [140000; 210000])
    = [e] :: map (fun _ => []) [140000; 210000]
    /\ event_path e = "/UsersData/u1/gpsLogs/70000"%string.
Proof.
  destruct (failsafe_halts GpsEsp.boot
              (gps_tick true fix_after_count_wrap 70000)
              (map (gps_tick true sample_fix) [140000; 210000]) eq_refl)
    as (_ & Hdue & _).
  destruct Hdue as (e & Hrun & Hpath).
  - refine (conj eq_refl (conj eq_refl (conj eq_refl (conj eq_refl _)))).
    exists 1709251200, 12.34567%float, (-77.12345)%float.
    repeat split; vm_compute; reflexivity.
  - vm_compute. discriminate.
  - exists e. split; [|exact Hpath].
    rewrite Hrun. reflexivity.
Defined.
